(** * Clarity-engine upload test scripts: multipart encoder and polling loop

    A shallow embedding of the two scripts [test-upload-simple.py] and
    [test-upload.py]: the hand-written multipart/form-data encoder of the
    first one, and the upload-then-poll control flow of both.

    Conventions of the embedding.
    - A Python [str] is a [string] holding the UTF-8 encoding of its text,
      so that [str.encode()] is the passage from [string] to [list byte].
    - A Python [bytes] object is a [list byte].
    - A Python [dict] that is only looked up is a [gmap string _]; a dict
      that is iterated in insertion order is an association list.
    - Effects (sleeping, HTTP calls, printing) are recorded in a trace of
      events; the replies of the HTTP layer are an explicit input. *)

From Stdlib Require Import Strings.String Strings.Ascii Strings.Byte.
From Stdlib Require Import ZArith Lia List DecimalString.
From stdpp Require Import base option list strings gmap.

(** ** Bytes and strings *)

Abbreviation bytes := (list byte).

#[global] Instance byte_eq_dec : EqDecision byte := Byte.byte_eq_dec.

(** [s.encode()] *)
Definition encode (s : string) : bytes := String.list_byte_of_string s.

Definition CR : byte := x0d.
Definition LF : byte := x0a.
Definition DQUOTE : byte := x22.
Definition DASH : byte := x2d.

(** The two-character Python literal written backslash-r backslash-n. *)
Definition crlf : string := String "013"%char (String "010"%char EmptyString).
(** The one-character string holding a double quote. *)
Definition dquote : string := String "034"%char EmptyString.

Definition CRLF : bytes := [CR; LF].

(** ** [bytes.hex()] *)

Definition hex_digit (n : N) : ascii :=
  match n with
  | 0 => "0" | 1 => "1" | 2 => "2" | 3 => "3" | 4 => "4" | 5 => "5"
  | 6 => "6" | 7 => "7" | 8 => "8" | 9 => "9" | 10 => "a" | 11 => "b"
  | 12 => "c" | 13 => "d" | 14 => "e" | _ => "f"
  end%N%char.

Definition hex_byte (b : byte) : string :=
  String (hex_digit (Byte.to_N b / 16)) (String (hex_digit (Byte.to_N b mod 16)) EmptyString).

Fixpoint hex (bs : bytes) : string :=
  match bs with
  | [] => EmptyString
  | b :: bs => hex_byte b +:+ hex bs
  end.

(** ** The encoder of [test-upload-simple.py] *)

Module Multipart.

(** [io.BytesIO.write]: the buffer is only ever appended to. *)
Definition write (body data : bytes) : bytes := body ++ data.

(** [boundary = '----WebKitFormBoundary' + os.urandom(16).hex()]; the bytes
    drawn from [os.urandom] are an input of the model. *)
Definition make_boundary (entropy : bytes) : string :=
  "----WebKitFormBoundary" +:+ hex entropy.

(** One iteration of [for name, value in fields.items()]. *)
Definition write_field (boundary : string) (body : bytes) (f : string * string) : bytes :=
  let '(name, value) := f in
  let body := write body (encode ("--" +:+ boundary +:+ crlf)) in
  let body := write body (encode ("Content-Disposition: form-data; name=" +:+ dquote
                                    +:+ name +:+ dquote +:+ crlf +:+ crlf)) in
  write body (encode (value +:+ crlf)).

(** One iteration of [for name, (filename, file_data) in files.items()]. *)
Definition write_file (boundary : string) (body : bytes)
    (f : string * (string * bytes)) : bytes :=
  let '(name, (filename, file_data)) := f in
  let body := write body (encode ("--" +:+ boundary +:+ crlf)) in
  let body := write body (encode ("Content-Disposition: form-data; name=" +:+ dquote
                                    +:+ name +:+ dquote +:+ "; filename=" +:+ dquote
                                    +:+ filename +:+ dquote +:+ crlf)) in
  let body := write body (encode ("Content-Type: text/csv" +:+ crlf +:+ crlf)) in
  let body := write body file_data in
  write body CRLF.

(** [fields] and [files] are the item lists of the two dicts, in insertion
    order. The result is [(body.getvalue(), content_type)]. *)
Definition encode_multipart_formdata
    (fields : list (string * string))
    (files : list (string * (string * bytes)))
    (entropy : bytes) : bytes * string :=
  let boundary := make_boundary entropy in
  let body : bytes := [] in
  let body := fold_left (write_field boundary) fields body in
  let body := fold_left (write_file boundary) files body in
  let body := write body (encode ("--" +:+ boundary +:+ "--" +:+ crlf)) in
  (body, "multipart/form-data; boundary=" +:+ boundary).

(** *** A reference multipart/form-data reader

    The receiving side, after RFC 2046 section 5.1.1 and RFC 7578. The
    boundary token is taken from the Content-Type value and the body
    starts with the dash-boundary. A delimiter is CRLF, two dashes and the
    token: the text between the line break that ends a delimiter line and
    the next delimiter is a body part, so that the CRLF of the empty line
    after the headers may itself start a delimiter. A body part is its
    header lines, then possibly an empty line and the content. A delimiter
    followed by two dashes closes the body. The value of a header
    parameter is a MIME quoted-string, in which a backslash quotes the
    next character. The reader is not part of the scripts. *)

Record part := Part {
  part_name : bytes;
  part_filename : option bytes;
  part_content : bytes
}.

Definition BACKSLASH : byte := x5c.

Fixpoint strip_prefix (p l : bytes) : option bytes :=
  match p, l with
  | [], _ => Some l
  | _ :: _, [] => None
  | a :: p, b :: l => if decide (a = b) then strip_prefix p l else None
  end.

(** [split_at pat l]: the text before and after the first occurrence of
    [pat] in [l]. *)
Fixpoint split_at (pat l : bytes) : option (bytes * bytes) :=
  match strip_prefix pat l with
  | Some rest => Some ([], rest)
  | None =>
      match l with
      | [] => None
      | x :: l => '(before, rest) ← split_at pat l; Some (x :: before, rest)
      end
  end.

Definition contains (pat l : bytes) : bool := bool_decide (is_Some (split_at pat l)).

(** A quoted-string after its opening quote: the value up to the closing
    quote, a backslash standing for the character that follows it, and
    the text after the closing quote. A string that never closes runs to
    the end. *)
Fixpoint quoted (l : bytes) : bytes * bytes :=
  match l with
  | [] => ([], [])
  | c :: l =>
      if decide (c = DQUOTE) then ([], l)
      else if decide (c = BACKSLASH) then
        match l with
        | [] => ([], [])
        | d :: l => let '(v, rest) := quoted l in (d :: v, rest)
        end
      else let '(v, rest) := quoted l in (c :: v, rest)
  end.

(** The header block of a part: the Content-Disposition line comes first
    and gives the name and possibly a file name; other lines are skipped. *)
Definition parse_disposition (hdrs : bytes) : option (bytes * option bytes) :=
  rest ← strip_prefix (encode ("Content-Disposition: form-data; name=" +:+ dquote)) hdrs;
  let '(name, rest) := quoted rest in
  match strip_prefix (encode ("; filename=" +:+ dquote)) rest with
  | Some rest => Some (name, Some (fst (quoted rest)))
  | None => Some (name, None)
  end.

(** The body parts of the text that follows a delimiter. *)
Fixpoint split_parts (fuel : nat) (delim l : bytes) : option (list bytes) :=
  match fuel with
  | 0 => None
  | S fuel =>
      match strip_prefix [DASH; DASH] l with
      | Some _ => Some []
      | None =>
          l ← strip_prefix CRLF l;
          '(body_part, l) ← split_at delim l;
          ps ← split_parts fuel delim l;
          Some (body_part :: ps)
      end
  end.

(** The headers and the content of a body part: no header at all when the
    part starts with the empty line, no content when it has no empty
    line. *)
Definition split_part (body_part : bytes) : bytes * bytes :=
  match strip_prefix CRLF body_part with
  | Some content => ([], content)
  | None =>
      match split_at (CRLF ++ CRLF) body_part with
      | Some (hdrs, content) => (hdrs, content)
      | None => (body_part, [])
      end
  end.

Definition parse_part (body_part : bytes) : option part :=
  let '(hdrs, content) := split_part body_part in
  '(name, filename) ← parse_disposition hdrs;
  Some (Part name filename content).

Definition parse_boundary (content_type : string) : option bytes :=
  strip_prefix (encode "multipart/form-data; boundary=") (encode content_type).

(** The boundary-delimited parts of a body. *)
Definition boundary_parts (content_type : string) (body : bytes) : option (list bytes) :=
  token ← parse_boundary content_type;
  l ← strip_prefix ([DASH; DASH] ++ token) body;
  split_parts (S (length body)) (CRLF ++ [DASH; DASH] ++ token) l.

Definition parse_multipart (content_type : string) (body : bytes) : option (list part) :=
  body_parts ← boundary_parts content_type body;
  mapM parse_part body_parts.

(** *** The layout of the body *)

Definition dash_boundary (token : bytes) : bytes := [DASH; DASH] ++ token.

Definition delimiter (token : bytes) : bytes := CRLF ++ dash_boundary token.

(** A part as it stands in the body: the dash-boundary line, the header
    block, the empty line, the content and the line break before the next
    delimiter. *)
Definition block (token : bytes) (p : bytes * bytes) : bytes :=
  dash_boundary token ++ CRLF ++ fst p ++ CRLF ++ CRLF ++ snd p ++ CRLF.

Definition closing (token : bytes) : bytes :=
  dash_boundary token ++ [DASH; DASH] ++ CRLF.

Definition field_headers (name : string) : bytes :=
  encode ("Content-Disposition: form-data; name=" +:+ dquote +:+ name +:+ dquote).

Definition file_headers (name filename : string) : bytes :=
  encode ("Content-Disposition: form-data; name=" +:+ dquote +:+ name +:+ dquote
            +:+ "; filename=" +:+ dquote +:+ filename +:+ dquote +:+ crlf
            +:+ "Content-Type: text/csv").

Definition field_block (f : string * string) : bytes * bytes :=
  (field_headers (fst f), encode (snd f)).

Definition file_block (f : string * (string * bytes)) : bytes * bytes :=
  (file_headers (fst f) (fst (snd f)), snd (snd f)).

(** The text that follows the first dash-boundary of a body. *)
Definition tail_of (token : bytes) (blocks : list (bytes * bytes)) : bytes :=
  concat (map (λ p, CRLF ++ fst p ++ CRLF ++ CRLF ++ snd p ++ delimiter token) blocks)
    ++ [DASH; DASH] ++ CRLF.

Definition no_byte (c : byte) (l : bytes) : bool :=
  forallb (λ x, negb (bool_decide (x = c))) l.

(** What the reader should give back for the encoder's arguments. *)
Definition field_part (f : string * string) : part :=
  Part (encode (fst f)) None (encode (snd f)).

Definition file_part (f : string * (string * bytes)) : part :=
  Part (encode (fst f)) (Some (encode (fst (snd f)))) (snd (snd f)).

(** A body part as it stands between two delimiters: the header block,
    the empty line and the content. *)
Definition raw_part (p : bytes * bytes) : bytes :=
  fst p ++ CRLF ++ CRLF ++ snd p.

(** An ASCII letter or digit. *)
Definition is_alnum (b : byte) : bool :=
  let n := Byte.to_N b in
  (((48 <=? n) && (n <=? 57)) || ((65 <=? n) && (n <=? 90))
   || ((97 <=? n) && (n <=? 122)))%N.

(** An ASCII letter or digit, a dot, an underscore or a dash. *)
Definition is_name_byte (b : byte) : bool :=
  let n := Byte.to_N b in
  (is_alnum b || (n =? 46) || (n =? 95) || (n =? 45))%N.

(** A name that every reader takes as it is, between quotes on a header
    line: not empty, beginning with a letter or a digit, and made of
    letters, digits, dots, underscores and dashes. *)
Definition header_safe (s : string) : bool :=
  match encode s with
  | [] => false
  | b :: l => is_alnum b && forallb is_name_byte l
  end.

(** The round trip at one input: the reader gives back every field and the
    file, in order, each with its name and its content unchanged. *)
Definition round_trip (fields : list (string * string))
    (file : string * (string * bytes)) (entropy : bytes) : Prop :=
  let r := encode_multipart_formdata fields [file] entropy in
  parse_multipart (snd r) (fst r) = Some (map field_part fields ++ [file_part file]).

End Multipart.

(** ** Python values, dictionaries, exceptions *)

(** The JSON documents the scripts read are objects whose fields hold
    scalars: [null], booleans, integers and strings, as [json.loads] gives
    them ([None], [bool], [int], [str]). Floating-point numbers and nested
    arrays or objects as field values are left out of the model. *)
Inductive value :=
| VNone
| VBool (b : bool)
| VInt (n : Z)
| VStr (s : string).

Abbreviation dict := (gmap string value).

(** [x == y]. A Python [bool] is an [int]: [True == 1] and [False == 0]. *)
Definition py_eq (x y : value) : bool :=
  match x, y with
  | VNone, VNone => true
  | VBool a, VBool b => bool_decide (a = b)
  | VBool a, VInt n | VInt n, VBool a => bool_decide (n = if a then 1 else 0)%Z
  | VInt n, VInt m => bool_decide (n = m)
  | VStr s, VStr t => bool_decide (s = t)
  | _, _ => false
  end.

(** [str(x)], as used by an f-string field. *)
Definition py_str (x : value) : string :=
  match x with
  | VNone => "None"
  | VBool true => "True"
  | VBool false => "False"
  | VInt n => NilZero.string_of_int (Z.to_int n)
  | VStr s => s
  end.

Inductive exn :=
| KeyError (key : string)
| Error (msg : string).

Definition quote : string := String "039"%char EmptyString.
Definition nl : string := String "010"%char EmptyString.

(** [str(e)]: a [KeyError] shows the [repr] of the missing key. *)
Definition exn_str (e : exn) : string :=
  match e with
  | KeyError key => quote +:+ key +:+ quote
  | Error msg => msg
  end.

(** [d[key]] *)
Definition getitem (d : dict) (key : string) : exn + value :=
  match d !! key with
  | Some v => inr v
  | None => inl (KeyError key)
  end.

(** [d.get(key, dflt)] *)
Definition get (d : dict) (key : string) (dflt : value) : value :=
  default dflt (d !! key).

(** ** Traces and the monad of the scripts *)

Inductive event :=
| Sleep (seconds : Z)
| Post (url content_type : string) (body : bytes)
| PostForm (url : string) (data : list (string * string))
    (files : list (string * (string * bytes * string)))
| Get (url : string)
| Print (text : string)
(** [print(label + json.dumps(d, indent=2))]; the JSON text is not expanded *)
| PrintJson (label : string) (d : dict).

Definition trace := list event.

(** A computation emits events and ends with a value or an exception. *)
Definition io (A : Type) : Type := trace * (exn + A).

#[global] Instance io_ret : MRet io := λ A a, ([], inr a).

#[global] Instance io_bind : MBind io := λ A B f m,
  match m with
  | (t, inl e) => (t, inl e)
  | (t, inr a) => let '(t', r) := f a in (t ++ t', r)
  end.

Definition emit (ev : event) : io unit := ([ev], inr tt).
Definition print (text : string) : io unit := emit (Print text).
Definition raise {A} (e : exn) : io A := ([], inl e).
Definition lift {A} (r : exn + A) : io A := ([], r).

(** [try: m  except Exception as e: h e] *)
Definition try_except {A} (m : io A) (h : exn → io A) : io A :=
  match m with
  | (t, inl e) => let '(t', r) := h e in (t ++ t', r)
  | (t, inr a) => (t, inr a)
  end.

Inductive control := Continue | Break.
Inductive loop_end := Exhausted | Broke.

(** [for i in range(start, start + n): body i], where the body says
    whether it ran into [break]. *)
Fixpoint for_range (start n : nat) (body : nat → io control) : io loop_end :=
  match n with
  | 0 => mret Exhausted
  | S n =>
      c ← body start;
      match c with
      | Break => mret Broke
      | Continue => for_range (S start) n body
      end
  end.

(** ** What both polling loops share *)

Definition upload_url : string := "http://localhost:5000/api/upload".
Definition batches_url : string := "http://localhost:5000/api/upload/batches".

Definition csv_name : string := "test-enrichment-flow.csv".

Definition flags : list (string * string) :=
  [("enableFinexio", "true"); ("enableMastercard", "true");
   ("enableGoogleAddress", "true"); ("enableAkkio", "true")].

(** [next((b for b in batches if b['id'] == batch_id), None)]: the
    generator is consumed up to the first match only. *)
Fixpoint find_batch (batch_id : value) (batches : list dict) : exn + option dict :=
  match batches with
  | [] => inr None
  | b :: batches =>
      match getitem b "id" with
      | inl e => inl e
      | inr v => if py_eq v batch_id then inr (Some b) else find_batch batch_id batches
      end
  end.

(** [if batch:] on [None] or a dict. *)
Definition truthy (batch : option dict) : bool :=
  match batch with
  | None => false
  | Some d => negb (bool_decide (d = ∅))
  end.

(** The eight snapshot lines, the same in both scripts. *)
Definition print_snapshot (i : nat) (batch : dict) : io unit :=
  print (nl +:+ "⏱️  Time: " +:+ py_str (VInt (Z.of_nat i * 10)) +:+ "s");;
  status ← lift (getitem batch "status");
  print ("📊 Status: " +:+ py_str status);;
  print ("📝 Current Step: " +:+ py_str (get batch "currentStep" (VStr "N/A")));;
  print ("📊 Classification: " +:+ py_str (get batch "processedRecords" (VInt 0))
           +:+ "/" +:+ py_str (get batch "totalRecords" (VInt 0)));;
  print ("🔍 Finexio: " +:+ py_str (get batch "finexioMatchingStatus" (VStr "pending")));;
  print ("📍 Google Address: " +:+ py_str (get batch "googleAddressStatus" (VStr "pending")));;
  print ("💳 Mastercard: " +:+ py_str (get batch "mastercardEnrichmentStatus" (VStr "pending")));;
  print ("🤖 Akkio: " +:+ py_str (get batch "akkioPredictionStatus" (VStr "pending"))).

(** ** [test-upload-simple.py] *)

Module Simple.

(** What [json.loads(urlopen(req).read().decode())] comes to: an
    exception, or the decoded document. *)
Inductive reply (A : Type) :=
| Raises (e : exn)
| Returns (a : A).
Arguments Raises {A} e.
Arguments Returns {A} a.

Definition fetch {A} (r : reply A) : io A :=
  match r with
  | Raises e => raise e
  | Returns a => mret a
  end.

(** The body of [for i in range(30)]. *)
Definition attempt (batch_id : value) (env : nat → reply (list dict)) (i : nat) : io control :=
  emit (Sleep 10);;
  emit (Get batches_url);;
  batches ← fetch (env i);
  batch ← lift (find_batch batch_id batches);
  if truthy batch then
    match batch with
    | Some batch =>
        print_snapshot i batch;;
        status ← lift (getitem batch "status");
        if py_eq status (VStr "completed") then
          print (nl +:+ "✅ Batch processing completed successfully!");;
          print "✅ All enrichment phases completed";;
          mret Break
        else mret Continue
    | None => mret Continue
    end
  else
    print ("⚠️ Batch " +:+ py_str batch_id +:+ " not found in list");;
    mret Continue.

Definition poll (batch_id : value) (env : nat → reply (list dict)) : io loop_end :=
  for_range 0 30 (attempt batch_id env).

(** The script from its first [print] on; [file_data] is the content of
    the CSV file, [entropy] what [os.urandom] returns, [upload] the reply
    to the POST and [env i] the reply to the [i]-th GET. *)
Definition main (file_data entropy : bytes) (upload : reply dict)
    (env : nat → reply (list dict)) : io unit :=
  print "📤 Testing batch upload and enrichment flow...";;
  let fields := flags in
  let files := [("file", (csv_name, file_data))] in
  let '(body, content_type) := Multipart.encode_multipart_formdata fields files entropy in
  try_except
    (emit (Post upload_url content_type body);;
     result ← fetch upload;
     let batch_id := get result "id" VNone in
     print ("✅ Upload successful! Batch ID: " +:+ py_str batch_id);;
     emit (PrintJson "📊 Initial response: " result);;
     print (nl +:+ "📍 Monitoring batch processing...");;
     poll batch_id env;;
     mret tt)
    (λ e, print ("❌ Error: " +:+ exn_str e)).

End Simple.

(** ** [test-upload.py] *)

Module Requests.

(** What [requests.post] or [requests.get] comes to: an exception, or a
    response with its status code, its text and the outcome of [.json()]. *)
Inductive reply (A : Type) :=
| Raises (e : exn)
| Response (status_code : Z) (text : string) (json : exn + A).
Arguments Raises {A} e.
Arguments Response {A} status_code text json.

Record response (A : Type) := {
  status_code : Z;
  text : string;
  json : exn + A
}.
Arguments status_code {A} r.
Arguments text {A} r.
Arguments json {A} r.

Definition fetch {A} (r : reply A) : io (response A) :=
  match r with
  | Raises e => raise e
  | Response c t j => mret {| status_code := c; text := t; json := j |}
  end.

(** The body of [for i in range(30)]. *)
Definition attempt (batch_id : value) (env : nat → reply (list dict)) (i : nat) : io control :=
  emit (Sleep 10);;
  emit (Get batches_url);;
  status_response ← fetch (env i);
  if bool_decide (status_code status_response = 200%Z) then
    batches ← lift (json status_response);
    batch ← lift (find_batch batch_id batches);
    if truthy batch then
      match batch with
      | Some batch =>
          print_snapshot i batch;;
          status ← lift (getitem batch "status");
          if py_eq status (VStr "completed") then
            print (nl +:+ "✅ Batch processing completed!");;
            mret Break
          else mret Continue
      | None => mret Continue
      end
    else mret Continue
  else
    print ("❌ Failed to get batch status: " +:+ py_str (VInt (status_code status_response)));;
    mret Continue.

Definition poll (batch_id : value) (env : nat → reply (list dict)) : io loop_end :=
  for_range 0 30 (attempt batch_id env).

(** The script from its first [print] on; nothing catches an exception. *)
Definition main (file_data : bytes) (upload : reply dict)
    (env : nat → reply (list dict)) : io unit :=
  let files := [("file", (csv_name, file_data, "text/csv"))] in
  let data := flags in
  print "📤 Uploading test file...";;
  emit (PostForm upload_url data files);;
  response ← fetch upload;
  if bool_decide (status_code response = 200%Z) then
    result ← lift (json response);
    let batch_id := get result "batchId" VNone in
    print ("✅ Upload successful! Batch ID: " +:+ py_str batch_id);;
    emit (PrintJson "📊 Response: " result);;
    print (nl +:+ "📍 Monitoring batch processing...");;
    poll batch_id env;;
    mret tt
  else
    print ("❌ Upload failed with status code: " +:+ py_str (VInt (status_code response)));;
    print ("Response: " +:+ text response).

End Requests.

(** ** Vocabulary for the claims on the polling loops *)

Fixpoint count (p : event → bool) (t : trace) : nat :=
  match t with
  | [] => 0
  | e :: t => (if p e then 1 else 0) + count p t
  end.

Definition is_sleep (e : event) : bool :=
  match e with Sleep _ => true | _ => false end.

Definition is_get (e : event) : bool :=
  match e with Get _ => true | _ => false end.

Definition is_print (e : event) : bool :=
  match e with Print _ | PrintJson _ _ => true | _ => false end.

(** Number of calls of [time.sleep] and of GET requests in a trace. *)
Definition sleeps (t : trace) : nat := count is_sleep t.
Definition gets (t : trace) : nat := count is_get t.
Definition prints (t : trace) : nat := count is_print t.

(** The entry [b] has an [id], which is not the target. *)
Definition differs (batch_id : value) (b : dict) : Prop :=
  ∃ v, b !! "id" = Some v ∧ py_eq v batch_id = false.

(** The entry [b] has an [id], which is the target. *)
Definition matches (batch_id : value) (b : dict) : Prop :=
  ∃ v, b !! "id" = Some v ∧ py_eq v batch_id = true.

(** [b] is the first entry of the list whose [id] is the target. *)
Definition locates (batch_id : value) (batches : list dict) (b : dict) : Prop :=
  ∃ pre post, batches = pre ++ b :: post
              ∧ Forall (differs batch_id) pre ∧ matches batch_id b.

(** Every entry has an [id] and none is the target. *)
Definition absent (batch_id : value) (batches : list dict) : Prop :=
  Forall (differs batch_id) batches.

(** The list shows the target batch with the status "completed". *)
Definition completed_in (batch_id : value) (batches : list dict) : Prop :=
  ∃ b, locates batch_id batches b ∧ b !! "status" = Some (VStr "completed").

(** The list does not show the target batch, or shows it with a status
    that is not "completed". *)
Definition pending_in (batch_id : value) (batches : list dict) : Prop :=
  absent batch_id batches
  ∨ ∃ b s, locates batch_id batches b ∧ b !! "status" = Some s ∧ s ≠ VStr "completed".

(** The text printed for an optional field: [str] of its value, or the
    text of the placeholder when the object lacks the field. *)
Definition shown (batch : dict) (key placeholder : string) : string :=
  match batch !! key with
  | Some v => py_str v
  | None => placeholder
  end.

(** The eight lines of a snapshot of [batch], whose status is [status],
    at attempt [i]. *)
Definition snapshot_lines (i : nat) (batch : dict) (status : value) : trace :=
  [ Print (nl +:+ "⏱️  Time: " +:+ py_str (VInt (Z.of_nat i * 10)) +:+ "s");
    Print ("📊 Status: " +:+ py_str status);
    Print ("📝 Current Step: " +:+ shown batch "currentStep" "N/A");
    Print ("📊 Classification: " +:+ shown batch "processedRecords" "0"
             +:+ "/" +:+ shown batch "totalRecords" "0");
    Print ("🔍 Finexio: " +:+ shown batch "finexioMatchingStatus" "pending");
    Print ("📍 Google Address: " +:+ shown batch "googleAddressStatus" "pending");
    Print ("💳 Mastercard: " +:+ shown batch "mastercardEnrichmentStatus" "pending");
    Print ("🤖 Akkio: " +:+ shown batch "akkioPredictionStatus" "pending") ].

(** The replies of the status endpoint, as each script sees them. *)
Definition simple_completed (batch_id : value) (r : Simple.reply (list dict)) : Prop :=
  ∃ batches, r = Simple.Returns batches ∧ completed_in batch_id batches.

Definition simple_pending (batch_id : value) (r : Simple.reply (list dict)) : Prop :=
  ∃ batches, r = Simple.Returns batches ∧ pending_in batch_id batches.

Definition simple_absent (batch_id : value) (r : Simple.reply (list dict)) : Prop :=
  ∃ batches, r = Simple.Returns batches ∧ absent batch_id batches.

Definition requests_completed (batch_id : value) (r : Requests.reply (list dict)) : Prop :=
  ∃ text batches, r = Requests.Response 200 text (inr batches)
                  ∧ completed_in batch_id batches.

Definition requests_pending (batch_id : value) (r : Requests.reply (list dict)) : Prop :=
  (∃ code text json, r = Requests.Response code text json ∧ code ≠ 200%Z)
  ∨ ∃ text batches, r = Requests.Response 200 text (inr batches)
                    ∧ pending_in batch_id batches.

Definition requests_absent (batch_id : value) (r : Requests.reply (list dict)) : Prop :=
  ∃ text batches, r = Requests.Response 200 text (inr batches)
                  ∧ absent batch_id batches.

(** The loop broke in attempt number [k] (from 0): [k] sleeps and [k] GET
    requests come before the sleep and the GET of that attempt, and none
    after them. *)
Definition stops_at (r : io loop_end) (k : nat) : Prop :=
  ∃ t0 t1, r = (t0 ++ [Sleep 10; Get batches_url] ++ t1, inr Broke)
           ∧ sleeps t0 = k ∧ gets t0 = k ∧ sleeps t1 = 0 ∧ gets t1 = 0.

(** ** Sample replies *)

Definition batch_of (id status : string) : dict :=
  {[ "id" := VStr id; "status" := VStr status ]}.

(** "processing" before attempt [k], "completed" from attempt [k] on. *)
Definition simple_env (k : nat) : nat → Simple.reply (list dict) :=
  λ j, Simple.Returns [batch_of "b1" (if j <? k then "processing" else "completed")].

Definition requests_env (k : nat) : nat → Requests.reply (list dict) :=
  λ j, Requests.Response 200 "[...]"
         (inr [batch_of "b1" (if j <? k then "processing" else "completed")]).

(** Another batch only, at every attempt. *)
Definition simple_other : nat → Simple.reply (list dict) :=
  λ _, Simple.Returns [batch_of "b2" "processing"].

Definition requests_other : nat → Requests.reply (list dict) :=
  λ _, Requests.Response 200 "[...]" (inr [batch_of "b2" "processing"]).

(** An entry without [id], and a reply whose status code is 500. *)
Definition no_id_batch : dict := {[ "status" := VStr "processing" ]}.

Definition simple_no_id : nat → Simple.reply (list dict) :=
  λ _, Simple.Returns [no_id_batch].

Definition requests_no_id : nat → Requests.reply (list dict) :=
  λ _, Requests.Response 200 "[...]" (inr [no_id_batch]).

Definition requests_failing : nat → Requests.reply (list dict) :=
  λ _, Requests.Response 500 "Internal Server Error" (inr [batch_of "b1" "completed"]).

(** The reading of a batch list goes through: no entry is the target and
    all have an [id], or the first entry that is the target has a
    [status] (and the entries before it an [id]). *)
Definition accessible (batch_id : value) (batches : list dict) : Prop :=
  absent batch_id batches
  ∨ ∃ b, locates batch_id batches b ∧ is_Some (b !! "status").

(** The line printed by [test-upload-simple.py] when the target is not in
    the list. *)
Definition not_found_line (batch_id : value) : event :=
  Print ("⚠️ Batch " +:+ py_str batch_id +:+ " not found in list").

(** A located batch that has nothing but [id] and [status]. *)
Definition simple_bare : nat → Simple.reply (list dict) :=
  λ _, Simple.Returns [batch_of "b1" "processing"].

Definition requests_bare : nat → Requests.reply (list dict) :=
  λ _, Requests.Response 200 "[...]" (inr [batch_of "b1" "processing"]).

(** An upload response that names the batch in [id] only. *)
Definition upload_result : dict := {[ "id" := VStr "b1" ]}.

(** ** Vocabulary for further properties of the encoder *)


(** The value of a lowercase hexadecimal digit. *)
Definition unhex_digit (b : byte) : option N :=
  let n := Byte.to_N b in
  if ((48 <=? n) && (n <=? 57))%N then Some (n - 48)%N
  else if ((97 <=? n) && (n <=? 102))%N then Some (n - 87)%N
  else None.

(** The inverse reading of [bytes.hex()], two digits per byte. *)
Fixpoint unhex (l : bytes) : option bytes :=
  match l with
  | [] => Some []
  | [_] => None
  | hi :: lo :: rest =>
      h ← unhex_digit hi;
      l ← unhex_digit lo;
      b ← Byte.of_N (16 * h + l);
      bs ← unhex rest;
      Some (b :: bs)
  end.

(** The round trip for any number of file parts. *)
Definition round_trip_files (fields : list (string * string))
    (files : list (string * (string * bytes))) (entropy : bytes) : Prop :=
  let r := Multipart.encode_multipart_formdata fields files entropy in
  Multipart.parse_multipart (snd r) (fst r)
    = Some (map Multipart.field_part fields ++ map Multipart.file_part files).

(** Seconds spent in [time.sleep] along a trace. *)
Fixpoint slept (t : trace) : Z :=
  match t with
  | [] => 0
  | Sleep seconds :: t => seconds + slept t
  | _ :: t => slept t
  end.

(** ** Vocabulary for further properties of the loops *)

(** A trace without any sleep or GET. *)
Definition quiet (t : trace) : bool :=
  forallb (λ e, negb (is_sleep e) && negb (is_get e)) t.

(** A sequence of attempts: each one sleeps 10 seconds, sends one GET and
    then does what is in [t], for each [t] of [ts]. *)
Definition rounds (ts : list trace) : trace :=
  concat (map (λ t, Sleep 10 :: Get batches_url :: t) ts).

(** One reply with the status "processing", then the connection breaks. *)
Definition simple_drop : nat → Simple.reply (list dict) :=
  λ j, if j <? 1 then Simple.Returns [batch_of "b1" "processing"]
       else Simple.Raises (Error "connection refused").

(** The target and then entries that would not be read well. *)
Definition simple_short : nat → Simple.reply (list dict) :=
  λ _, Simple.Returns [batch_of "b2" "queued"; batch_of "b1" "processing"].

Definition simple_long : nat → Simple.reply (list dict) :=
  λ _, Simple.Returns [batch_of "b2" "queued"; batch_of "b1" "processing";
                       no_id_batch; batch_of "b1" "completed"].

Definition requests_short : nat → Requests.reply (list dict) :=
  λ _, Requests.Response 200 "[...]"
         (inr [batch_of "b2" "queued"; batch_of "b1" "processing"]).

Definition requests_long : nat → Requests.reply (list dict) :=
  λ _, Requests.Response 200 "[...]"
         (inr [batch_of "b2" "queued"; batch_of "b1" "processing";
               no_id_batch; batch_of "b1" "completed"]).

(** A batch whose optional fields are null. *)
Definition null_batch : dict :=
  {[ "id" := VStr "b1"; "status" := VStr "processing";
     "currentStep" := VNone; "processedRecords" := VNone; "totalRecords" := VNone;
     "finexioMatchingStatus" := VNone; "googleAddressStatus" := VNone;
     "mastercardEnrichmentStatus" := VNone; "akkioPredictionStatus" := VNone ]}.

(** What the scripts print and send before the first attempt, once the
    upload has answered with [result]. *)
Definition simple_prelude (file_data entropy : bytes) (result : dict) : trace :=
  let r := Multipart.encode_multipart_formdata flags [("file", (csv_name, file_data))] entropy in
  [Print "📤 Testing batch upload and enrichment flow...";
   Post upload_url (snd r) (fst r);
   Print ("✅ Upload successful! Batch ID: " +:+ py_str (get result "id" VNone));
   PrintJson "📊 Initial response: " result;
   Print (nl +:+ "📍 Monitoring batch processing...")].

Definition requests_prelude (file_data : bytes) (result : dict) : trace :=
  [Print "📤 Uploading test file...";
   PostForm upload_url flags [("file", (csv_name, file_data, "text/csv"))];
   Print ("✅ Upload successful! Batch ID: " +:+ py_str (get result "batchId" VNone));
   PrintJson "📊 Response: " result;
   Print (nl +:+ "📍 Monitoring batch processing...")].

(** * Properties *)

(** ** Byte strings *)

Section ByteStrings.

Import Multipart.

Lemma encode_nil : encode EmptyString = [].
Proof. done. Qed.

Lemma encode_cons (a : ascii) (s : string) :
  encode (String a s) = byte_of_ascii a :: encode s.
Proof. done. Qed.

Lemma encode_app (s t : string) : encode (s +:+ t) = encode s ++ encode t.
Proof.
  unfold encode, String.list_byte_of_string.
  induction s as [|a s IH]; simpl; [done|]. by rewrite IH.
Qed.

Lemma strip_prefix_app (p l : bytes) : strip_prefix p (p ++ l) = Some l.
Proof.
  induction p as [|a p IH]; simpl; [done|].
  by rewrite decide_True.
Qed.

Lemma strip_prefix_Some (p l r : bytes) : strip_prefix p l = Some r → l = p ++ r.
Proof.
  revert l. induction p as [|a p IH]; intros [|b l]; simpl; try congruence.
  case_decide; [|done]. intros Hs. subst b. f_equal. by apply IH.
Qed.

Lemma strip_prefix_tail (c : byte) (pt a r : bytes) :
  Forall (λ x, x ≠ c) pt →
  strip_prefix pt a = None → strip_prefix pt (a ++ c :: r) = None.
Proof.
  intros Hpt. revert a. induction Hpt as [|y pt Hy _ IH]; intros a; simpl; [done|].
  destruct a as [|z a]; simpl.
  - intros _. by rewrite decide_False.
  - case_decide; [apply IH|done].
Qed.

Lemma strip_prefix_short (p l b : bytes) :
  strip_prefix p l = None → length p ≤ length l → strip_prefix p (l ++ b) = None.
Proof.
  revert l. induction p as [|a p IH]; intros [|x l]; simpl; try done; try lia.
  case_decide; [|done]. intros Hs Hlen. apply IH; [done|simpl in Hlen; lia].
Qed.

Lemma split_at_here (pat l : bytes) : split_at pat (pat ++ l) = Some ([], l).
Proof. destruct (pat ++ l) eqn:E; simpl; rewrite <- E, strip_prefix_app; done. Qed.

Lemma split_at_Some (pat l a b : bytes) :
  split_at pat l = Some (a, b) → l = a ++ pat ++ b.
Proof.
  revert a. induction l as [|x l IH]; intros a; simpl.
  - destruct (strip_prefix pat []) eqn:E; [|done].
    intros [= <- <-]. by apply strip_prefix_Some in E.
  - destruct (strip_prefix pat (x :: l)) eqn:E.
    + intros [= <- <-]. by apply strip_prefix_Some in E.
    + destruct (split_at pat l) as [[u v]|] eqn:E'; simpl; [|done].
      intros [= <- <-]. simpl. f_equal. by apply IH.
Qed.

Lemma split_at_length (pat l a b : bytes) :
  split_at pat l = Some (a, b) → length pat ≤ length l.
Proof.
  intros H. apply split_at_Some in H. subst l. rewrite !length_app. lia.
Qed.

(** Bytes that differ from the first byte of the pattern are passed over. *)
Lemma split_at_skip (c : byte) (pt a l : bytes) :
  Forall (λ x, x ≠ c) a →
  split_at (c :: pt) (a ++ l) =
    (λ r : bytes * bytes, (a ++ r.1, r.2)) <$> split_at (c :: pt) l.
Proof.
  induction 1 as [|x a Hx _ IH].
  - simpl app. destruct (split_at (c :: pt) l) as [[u v]|]; done.
  - change ((x :: a) ++ l) with (x :: (a ++ l)).
    cbn [split_at strip_prefix]. rewrite decide_False by done.
    rewrite IH. destruct (split_at (c :: pt) l) as [[u v]|]; done.
Qed.

(** The first occurrence in a text is still the first one when the text
    goes on. *)
Lemma split_at_extend (pat l u v b : bytes) :
  split_at pat l = Some (u, v) → split_at pat (l ++ b) = Some (u, v ++ b).
Proof.
  revert u. induction l as [|x l IH]; intros u; simpl.
  - destruct (strip_prefix pat []) eqn:E; [|done].
    intros [= <- <-]. apply strip_prefix_Some in E.
    destruct pat; [|done]. simpl in E. subst l. by destruct b.
  - destruct (strip_prefix pat (x :: l)) eqn:E.
    + intros [= <- <-]. apply strip_prefix_Some in E.
      change (x :: l ++ b) with ((x :: l) ++ b). rewrite E.
      rewrite <- app_assoc. by rewrite strip_prefix_app.
    + destruct (split_at pat l) as [[u' v']|] eqn:E'; simpl; [|done].
      intros [= <- <-].
      change (x :: l ++ b) with ((x :: l) ++ b).
      rewrite strip_prefix_short; [|done|].
      * simpl. by rewrite (IH u').
      * apply split_at_length in E'. simpl. lia.
Qed.

(** A pattern whose first byte does not come back in it is found right
    after a text that does not hold it. *)
Lemma split_at_first (c : byte) (pt a b : bytes) :
  Forall (λ x, x ≠ c) pt →
  contains (c :: pt) a = false →
  split_at (c :: pt) (a ++ (c :: pt) ++ b) = Some (a, b).
Proof.
  intros Hpt. unfold contains. rewrite bool_decide_eq_false.
  induction a as [|x a IH]; intros Hno.
  - simpl app. destruct pt; simpl; rewrite decide_True by done;
      [done|]. rewrite decide_True by done. by rewrite strip_prefix_app.
  - assert (strip_prefix (c :: pt) (x :: a) = None ∧ split_at (c :: pt) a = None)
      as [H1 H2].
    { cbn [split_at] in Hno. destruct (strip_prefix (c :: pt) (x :: a)).
      - exfalso. apply Hno. eauto.
      - split; [done|]. destruct (split_at (c :: pt) a) as [[u v]|]; [|done].
        exfalso. apply Hno. simpl. eauto. }
    change ((x :: a) ++ (c :: pt) ++ b) with (x :: (a ++ (c :: pt) ++ b)).
    cbn [split_at].
    assert (strip_prefix (c :: pt) (x :: (a ++ (c :: pt) ++ b)) = None) as ->.
    { simpl in H1 |- *. case_decide; [|done].
      change ((c :: pt) ++ b) with (c :: (pt ++ b)). by apply strip_prefix_tail. }
    rewrite IH; [done|]. rewrite H2. by intros [? ?].
Qed.

(** [contains] is the search for a factor. *)
Lemma contains_spec (pat l : bytes) :
  contains pat l = true ↔ ∃ u v, l = u ++ pat ++ v.
Proof.
  unfold contains. rewrite bool_decide_eq_true. split.
  - intros [[u v] H]. apply split_at_Some in H. eauto.
  - intros (u & v & ->). induction u as [|x u IH]; simpl.
    + rewrite split_at_here. eauto.
    + destruct (strip_prefix pat (x :: u ++ pat ++ v)); [eauto|].
      destruct IH as [[u' v'] ->]. simpl. eauto.
Qed.

End ByteStrings.

#[local] Arguments encode : simpl never.

(** Both sides of an equation between byte strings are brought to the same
    right-nested shape. *)
Ltac norm_bytes :=
  unfold crlf, dquote, CRLF, CR, LF, DASH, DQUOTE in *;
  repeat first
    [ rewrite encode_app | rewrite encode_cons | rewrite encode_nil
    | rewrite <- app_assoc | progress simpl ].

(** ** The encoder *)

Section Encoder.

Import Multipart.

Lemma write_field_block (boundary : string) (body : bytes) (f : string * string) :
  write_field boundary body f = body ++ block (encode boundary) (field_block f).
Proof.
  destruct f as [name value].
  unfold write_field, write, block, field_block, field_headers, dash_boundary.
  norm_bytes. reflexivity.
Qed.

Lemma write_file_block (boundary : string) (body : bytes)
    (f : string * (string * bytes)) :
  write_file boundary body f = body ++ block (encode boundary) (file_block f).
Proof.
  destruct f as [name [filename file_data]].
  unfold write_file, write, block, file_block, file_headers, dash_boundary.
  norm_bytes. reflexivity.
Qed.

Lemma fold_write_field (boundary : string) (fields : list (string * string)) (body : bytes) :
  fold_left (write_field boundary) fields body =
    body ++ concat (map (λ f, block (encode boundary) (field_block f)) fields).
Proof.
  revert body. induction fields as [|f fields IH]; intros body; simpl.
  - by rewrite app_nil_r.
  - by rewrite IH, write_field_block, <- app_assoc.
Qed.

Lemma fold_write_file (boundary : string) (files : list (string * (string * bytes)))
    (body : bytes) :
  fold_left (write_file boundary) files body =
    body ++ concat (map (λ f, block (encode boundary) (file_block f)) files).
Proof.
  revert body. induction files as [|f files IH]; intros body; simpl.
  - by rewrite app_nil_r.
  - by rewrite IH, write_file_block, <- app_assoc.
Qed.

(** The body is the blocks of the fields, then those of the files, then
    the closing line; the content type names the same token. *)
Lemma encoder_layout (fields : list (string * string))
    (files : list (string * (string * bytes))) (entropy : bytes) :
  encode_multipart_formdata fields files entropy =
    (concat (map (block (encode (make_boundary entropy)))
               (map field_block fields ++ map file_block files))
       ++ closing (encode (make_boundary entropy)),
     "multipart/form-data; boundary=" +:+ make_boundary entropy).
Proof.
  unfold encode_multipart_formdata. f_equal.
  rewrite fold_write_file, fold_write_field. unfold write. simpl.
  rewrite map_app, concat_app, !map_map. f_equal.
  unfold closing, dash_boundary. norm_bytes. reflexivity.
Qed.

End Encoder.

(** ** The reader on the encoder's output *)

Section Reader.

Import Multipart.

Lemma no_byte_Forall (c : byte) (l : bytes) :
  no_byte c l = true → Forall (λ x, x ≠ c) l.
Proof.
  unfold no_byte. induction l as [|x l IH]; simpl; [constructor|].
  rewrite andb_true_iff, negb_true_iff, bool_decide_eq_false.
  intros [Hx Hl]. constructor; auto.
Qed.

Lemma hex_no_cr (entropy : bytes) : Forall (λ x, x ≠ CR) (encode (hex entropy)).
Proof.
  induction entropy as [|b bs IH]; simpl; [constructor|].
  rewrite encode_app. apply Forall_app. split; [|done].
  apply no_byte_Forall. by destruct b.
Qed.

Lemma boundary_no_cr (entropy : bytes) :
  Forall (λ x, x ≠ CR) (encode (make_boundary entropy)).
Proof.
  unfold make_boundary. rewrite encode_app. apply Forall_app. split.
  - by apply no_byte_Forall.
  - apply hex_no_cr.
Qed.

Lemma blocks_tail (token : bytes) (blocks : list (bytes * bytes)) :
  concat (map (block token) blocks) ++ closing token =
    dash_boundary token ++ tail_of token blocks.
Proof.
  unfold tail_of. induction blocks as [|p blocks IH]; cbn [map concat].
  - reflexivity.
  - rewrite <- app_assoc, IH. unfold block, delimiter.
    rewrite <- !app_assoc. reflexivity.
Qed.

Lemma no_byte_app (c : byte) (a b : bytes) :
  no_byte c (a ++ b) = no_byte c a && no_byte c b.
Proof. apply forallb_app. Qed.

Lemma is_name_byte_inv (b : byte) :
  is_name_byte b = true → b ≠ DQUOTE ∧ b ≠ BACKSLASH ∧ b ≠ CR ∧ b ≠ LF.
Proof. by destruct b. Qed.

Lemma is_alnum_name_byte (b : byte) : is_alnum b = true → is_name_byte b = true.
Proof. unfold is_name_byte. by intros ->. Qed.

Lemma header_safe_bytes (s : string) :
  header_safe s = true → forallb is_name_byte (encode s) = true.
Proof.
  unfold header_safe. destruct (encode s) as [|b l]; [done|].
  cbn [forallb]. rewrite !andb_true_iff. intros [Hb Hl].
  split; [by apply is_alnum_name_byte|done].
Qed.

Lemma header_safe_inv (s : string) :
  header_safe s = true →
  no_byte DQUOTE (encode s) = true ∧ no_byte BACKSLASH (encode s) = true
  ∧ no_byte CR (encode s) = true.
Proof.
  intros H%header_safe_bytes. revert H.
  unfold no_byte. induction (encode s) as [|b l IH]; [done|].
  cbn [forallb]. rewrite !andb_true_iff. intros [Hb Hl].
  destruct (is_name_byte_inv b Hb) as (H1 & H2 & H3 & _).
  destruct (IH Hl) as (I1 & I2 & I3).
  rewrite I1, I2, I3, !bool_decide_eq_false_2 by done. done.
Qed.

(** A value without quote or backslash is read up to the closing quote. *)
Lemma quoted_closed (v rest : bytes) :
  no_byte DQUOTE v = true → no_byte BACKSLASH v = true →
  quoted (v ++ [DQUOTE] ++ rest) = (v, rest).
Proof.
  unfold no_byte. induction v as [|c v IH]; cbn [forallb app quoted].
  - intros _ _. by rewrite decide_True.
  - rewrite !andb_true_iff, !negb_true_iff, !bool_decide_eq_false.
    intros [Hq Hv] [Hb Hv']. rewrite !decide_False by done.
    cbn [app] in IH. by rewrite IH.
Qed.

Lemma split_headers (h rest : bytes) :
  no_byte CR h = true →
  split_at (CRLF ++ CRLF) (h ++ CRLF ++ CRLF ++ rest) = Some (h, rest).
Proof.
  intros Hh. rewrite (split_at_skip CR [LF; CR; LF]) by by apply no_byte_Forall.
  rewrite app_assoc, (split_at_here (CRLF ++ CRLF)). simpl. by rewrite app_nil_r.
Qed.

Lemma field_headers_eq (name : string) :
  field_headers name =
    encode ("Content-Disposition: form-data; name=" +:+ dquote)
      ++ encode name ++ [DQUOTE].
Proof. unfold field_headers. norm_bytes. reflexivity. Qed.

Lemma file_headers_eq (name filename : string) :
  file_headers name filename =
    encode ("Content-Disposition: form-data; name=" +:+ dquote)
      ++ encode name ++ [DQUOTE]
      ++ encode ("; filename=" +:+ dquote) ++ encode filename ++ [DQUOTE]
      ++ CRLF ++ encode "Content-Type: text/csv".
Proof. unfold file_headers. norm_bytes. reflexivity. Qed.

(** *** Where the delimiter can be found *)

Lemma contains_false (pat l : bytes) : contains pat l = false ↔ split_at pat l = None.
Proof.
  unfold contains. rewrite bool_decide_eq_false. split.
  - intros H. destruct (split_at pat l); [|done]. exfalso. eauto.
  - intros ->. by intros [? ?].
Qed.

(** A text that holds [a ++ pat] holds [pat]. *)
Lemma contains_suffix_pattern (a pat l : bytes) :
  contains pat l = false → contains (a ++ pat) l = false.
Proof.
  intros H. apply not_true_is_false. intros H'. apply contains_spec in H'.
  destruct H' as (u & v & ->). apply not_true_iff_false in H. apply H.
  apply contains_spec. exists (u ++ a), v. by rewrite <- !app_assoc.
Qed.

(** Before a content that does not hold the dash-boundary, the line break
    of the empty line does not start a delimiter. *)
Lemma no_delimiter_after_crlf (token c : bytes) :
  contains (dash_boundary token) c = false →
  contains (delimiter token) (CRLF ++ c) = false.
Proof.
  intros H. apply not_true_is_false. intros H'. apply contains_spec in H'.
  destruct H' as (u & v & E). apply not_true_iff_false in H. apply H.
  apply contains_spec. unfold delimiter, CRLF in E.
  destruct u as [|x [|y u]]; cbn [app] in E.
  - injection E as E. exists [], v. by rewrite E.
  - injection E as _ E. discriminate E.
  - injection E as _ _ E. exists (u ++ [CR; LF]), v.
    rewrite E, <- !app_assoc. reflexivity.
Qed.

Lemma split_at_cons_None (pat l : bytes) (x : byte) :
  strip_prefix pat (x :: l) = None → split_at pat l = None →
  split_at pat (x :: l) = None.
Proof. intros H1 H2. cbn [split_at]. by rewrite H1, H2. Qed.

Lemma split_at_skip_None (c : byte) (pt a l : bytes) :
  Forall (λ x, x ≠ c) a → split_at (c :: pt) l = None →
  split_at (c :: pt) (a ++ l) = None.
Proof. intros Ha Hl. by rewrite split_at_skip, Hl. Qed.

(** A line break followed by a byte that is not a dash starts no
    delimiter. *)
Lemma no_delimiter_at_line (token l : bytes) (x : byte) :
  x ≠ DASH →
  split_at (delimiter token) (x :: l) = None →
  split_at (delimiter token) (CRLF ++ x :: l) = None.
Proof.
  intros Hx Hl. unfold CRLF. cbn [app].
  apply split_at_cons_None.
  - unfold delimiter, CRLF, dash_boundary. cbn [app strip_prefix].
    rewrite !decide_True by done. by rewrite decide_False.
  - change (LF :: x :: l) with ([LF] ++ x :: l).
    apply (split_at_skip_None CR); [|exact Hl].
    repeat constructor. discriminate.
Qed.

(** The empty line before a content that does not hold the dash-boundary. *)
Lemma no_delimiter_in_empty_line (token c : bytes) :
  contains (dash_boundary token) c = false →
  split_at (delimiter token) (CRLF ++ CRLF ++ c) = None.
Proof.
  intros H. unfold CRLF at 2. cbn [app].
  apply no_delimiter_at_line; [discriminate|].
  apply contains_false. by apply (no_delimiter_after_crlf token c).
Qed.

Lemma field_part_clean (token : bytes) (f : string * string) :
  header_safe (fst f) = true →
  contains (dash_boundary token) (encode (snd f)) = false →
  contains (delimiter token) (raw_part (field_block f)) = false.
Proof.
  destruct f as [name value]. cbn [fst snd]. intros (Hq & Hb & Hcr)%header_safe_inv Hv.
  apply contains_false. unfold raw_part, field_block. cbn [fst snd].
  apply (split_at_skip_None CR).
  - apply no_byte_Forall. rewrite field_headers_eq, !no_byte_app, Hcr. reflexivity.
  - by apply no_delimiter_in_empty_line.
Qed.

Lemma file_part_clean (token : bytes) (f : string * (string * bytes)) :
  header_safe (fst f) = true →
  header_safe (fst (snd f)) = true →
  contains (dash_boundary token) (snd (snd f)) = false →
  contains (delimiter token) (raw_part (file_block f)) = false.
Proof.
  destruct f as [name [filename data]]. cbn [fst snd].
  intros (Hq & Hb & Hcr)%header_safe_inv (Hq' & Hb' & Hcr')%header_safe_inv Hv.
  apply contains_false. unfold raw_part, file_block. cbn [fst snd].
  rewrite file_headers_eq.
  set (pre := encode ("Content-Disposition: form-data; name=" +:+ dquote)).
  set (mid := encode ("; filename=" +:+ dquote)).
  set (h := pre ++ encode name ++ [DQUOTE] ++ mid ++ encode filename ++ [DQUOTE]).
  assert ((pre ++ encode name ++ [DQUOTE] ++ mid ++ encode filename ++ [DQUOTE]
             ++ CRLF ++ encode "Content-Type: text/csv") ++ CRLF ++ CRLF ++ data
          = h ++ CRLF ++ x43 :: (encode "ontent-Type: text/csv" ++ CRLF ++ CRLF ++ data))
    as -> by (unfold h; rewrite <- !app_assoc; reflexivity).
  apply (split_at_skip_None CR).
  - apply no_byte_Forall. unfold h. rewrite !no_byte_app, Hcr, Hcr'. reflexivity.
  - apply no_delimiter_at_line; [discriminate|].
    change (x43 :: encode "ontent-Type: text/csv" ++ CRLF ++ CRLF ++ data)
      with (encode "Content-Type: text/csv" ++ CRLF ++ CRLF ++ data).
    apply (split_at_skip_None CR); [by apply no_byte_Forall|].
    by apply no_delimiter_in_empty_line.
Qed.

(** *** Splitting the body and reading the parts *)

Lemma tail_of_cons (token : bytes) (p : bytes * bytes) (blocks : list (bytes * bytes)) :
  tail_of token (p :: blocks)
    = CRLF ++ raw_part p ++ delimiter token ++ tail_of token blocks.
Proof. unfold tail_of, raw_part. cbn [map concat]. by rewrite <- !app_assoc. Qed.

Lemma no_dashes_at_crlf (l : bytes) : strip_prefix [DASH; DASH] (CRLF ++ l) = None.
Proof. unfold CRLF. cbn [app strip_prefix]. by rewrite decide_False. Qed.

Lemma split_parts_blocks (token : bytes) (blocks : list (bytes * bytes)) (fuel : nat) :
  Forall (λ x, x ≠ CR) token →
  Forall (λ p, contains (delimiter token) (raw_part p) = false) blocks →
  length blocks < fuel →
  split_parts fuel (delimiter token) (tail_of token blocks) = Some (map raw_part blocks).
Proof.
  intros Htok Hall. revert fuel.
  induction Hall as [|p blocks Hp _ IH]; intros [|fuel] Hlen; simpl in Hlen; try lia.
  - reflexivity.
  - rewrite tail_of_cons. cbn [split_parts map].
    rewrite no_dashes_at_crlf, strip_prefix_app. cbn [mbind option_bind].
    rewrite (split_at_first CR (LF :: dash_boundary token)).
    + cbn [mbind option_bind]. rewrite IH by lia. reflexivity.
    + repeat first [exact Htok | constructor | discriminate].
    + exact Hp.
Qed.

Lemma field_part_parses (f : string * string) :
  header_safe (fst f) = true →
  parse_part (raw_part (field_block f)) = Some (field_part f).
Proof.
  destruct f as [name value]. cbn [fst]. intros (Hq & Hb & Hcr)%header_safe_inv.
  unfold parse_part, split_part, raw_part, field_block, field_part. cbn [fst snd].
  assert (strip_prefix CRLF (field_headers name ++ CRLF ++ CRLF ++ encode value) = None)
    as -> by (by rewrite field_headers_eq).
  rewrite split_headers by (rewrite field_headers_eq, !no_byte_app, Hcr; reflexivity).
  unfold parse_disposition.
  rewrite field_headers_eq, strip_prefix_app. cbn [mbind option_bind].
  rewrite <- (app_nil_r [DQUOTE]), quoted_closed by done. reflexivity.
Qed.

Lemma file_part_parses (f : string * (string * bytes)) :
  header_safe (fst f) = true →
  header_safe (fst (snd f)) = true →
  parse_part (raw_part (file_block f)) = Some (file_part f).
Proof.
  destruct f as [name [filename data]]. cbn [fst snd].
  intros (Hq & Hb & Hcr)%header_safe_inv (Hq' & Hb' & Hcr')%header_safe_inv.
  unfold parse_part, split_part, raw_part, file_block, file_part. cbn [fst snd].
  assert (strip_prefix CRLF (file_headers name filename ++ CRLF ++ CRLF ++ data) = None)
    as -> by (by rewrite file_headers_eq).
  assert (split_at (CRLF ++ CRLF) (file_headers name filename ++ CRLF ++ CRLF ++ data)
          = Some (file_headers name filename, data)) as ->.
  { rewrite file_headers_eq.
    set (pre := encode ("Content-Disposition: form-data; name=" +:+ dquote)).
    set (mid := encode ("; filename=" +:+ dquote)).
    set (ct := encode "Content-Type: text/csv").
    set (h := pre ++ encode name ++ [DQUOTE] ++ mid ++ encode filename ++ [DQUOTE]).
    assert ((pre ++ encode name ++ [DQUOTE] ++ mid ++ encode filename ++ [DQUOTE]
               ++ CRLF ++ ct) ++ CRLF ++ CRLF ++ data
            = h ++ ((CRLF ++ ct) ++ CRLF ++ CRLF) ++ data) as ->
      by (unfold h; rewrite <- !app_assoc; reflexivity).
    assert (pre ++ encode name ++ [DQUOTE] ++ mid ++ encode filename ++ [DQUOTE]
               ++ CRLF ++ ct = h ++ CRLF ++ ct) as ->
      by (unfold h; rewrite <- !app_assoc; reflexivity).
    rewrite (split_at_skip CR [LF; CR; LF]).
    + rewrite (split_at_extend [CR; LF; CR; LF] ((CRLF ++ ct) ++ CRLF ++ CRLF)
                 (CRLF ++ ct) [] data) by reflexivity.
      reflexivity.
    + apply no_byte_Forall. unfold h. rewrite !no_byte_app, Hcr, Hcr'. reflexivity. }
  unfold parse_disposition.
  rewrite file_headers_eq, strip_prefix_app. cbn [mbind option_bind].
  rewrite quoted_closed by done. rewrite strip_prefix_app.
  rewrite quoted_closed by done. reflexivity.
Qed.

Lemma file_headers_lines (name filename : string) :
  ∃ h, file_headers name filename = h ++ CRLF ++ encode "Content-Type: text/csv"
       ∧ (header_safe name = true → header_safe filename = true →
          Forall (λ x, x ≠ CR) h).
Proof.
  exists (encode ("Content-Disposition: form-data; name=" +:+ dquote)
            ++ encode name ++ [DQUOTE]
            ++ encode ("; filename=" +:+ dquote) ++ encode filename ++ [DQUOTE]).
  split.
  - rewrite file_headers_eq, <- !app_assoc. reflexivity.
  - intros (Hq & Hb & Hcr)%header_safe_inv (Hq' & Hb' & Hcr')%header_safe_inv.
    apply no_byte_Forall. rewrite !no_byte_app, Hcr, Hcr'. reflexivity.
Qed.

(** The header block of a file part ends at the empty line. *)
Lemma split_file_headers (name filename : string) (rest : bytes) :
  header_safe name = true →
  header_safe filename = true →
  split_at (CRLF ++ CRLF) (file_headers name filename ++ CRLF ++ CRLF ++ rest)
    = Some (file_headers name filename, rest).
Proof.
  intros Hn Hfn.
  destruct (file_headers_lines name filename) as (h & -> & Hh).
  specialize (Hh Hn Hfn). rewrite <- !app_assoc.
  rewrite (split_at_skip CR [LF; CR; LF]) by exact Hh.
  assert (split_at [CR; LF; CR; LF]
            (CRLF ++ encode "Content-Type: text/csv" ++ CRLF ++ CRLF ++ rest)
          = Some (CRLF ++ encode "Content-Type: text/csv", rest)) as ->.
  { exact (split_at_extend [CR; LF; CR; LF]
             ((CRLF ++ encode "Content-Type: text/csv") ++ CRLF ++ CRLF)
             (CRLF ++ encode "Content-Type: text/csv") [] rest eq_refl). }
  reflexivity.
Qed.

(** Each part, read up to its first empty line, gives the header block
    and the content that were written. *)
Lemma split_part_field (f : string * string) :
  header_safe (fst f) = true →
  split_part (raw_part (field_block f)) = field_block f.
Proof.
  destruct f as [name value]. cbn [fst]. intros (Hq & Hb & Hcr)%header_safe_inv.
  unfold split_part, raw_part, field_block. cbn [fst snd].
  assert (strip_prefix CRLF (field_headers name ++ CRLF ++ CRLF ++ encode value) = None)
    as -> by (by rewrite field_headers_eq).
  rewrite split_headers by (rewrite field_headers_eq, !no_byte_app, Hcr; reflexivity).
  reflexivity.
Qed.

Lemma split_part_file (f : string * (string * bytes)) :
  header_safe (fst f) = true →
  header_safe (fst (snd f)) = true →
  split_part (raw_part (file_block f)) = file_block f.
Proof.
  destruct f as [name [filename data]]. cbn [fst snd]. intros Hn Hfn.
  unfold split_part, raw_part, file_block. cbn [fst snd].
  assert (strip_prefix CRLF (file_headers name filename ++ CRLF ++ CRLF ++ data) = None)
    as -> by (by rewrite file_headers_eq).
  by rewrite split_file_headers.
Qed.

Lemma mapM_parse_app (xs ys : list bytes) (ps qs : list part) :
  mapM parse_part xs = Some ps → mapM parse_part ys = Some qs →
  mapM parse_part (xs ++ ys) = Some (ps ++ qs).
Proof.
  revert ps. induction xs as [|x xs IH]; intros ps; cbn [mapM app].
  - intros [= <-]. done.
  - destruct (parse_part x) as [p|]; [|done]. cbn [mbind option_bind].
    destruct (mapM parse_part xs) as [ps'|]; [|done]. cbn [mbind option_bind mret option_ret].
    intros [= <-] Hy. rewrite (IH ps' eq_refl Hy). reflexivity.
Qed.

Lemma fields_parse (fields : list (string * string)) :
  Forall (λ f, header_safe (fst f) = true) fields →
  mapM parse_part (map raw_part (map field_block fields)) = Some (map field_part fields).
Proof.
  induction 1 as [|f fs Hf _ IH]; cbn [map mapM]; [done|].
  rewrite (field_part_parses f Hf). cbn [mbind option_bind]. rewrite IH. reflexivity.
Qed.

Lemma files_parse (files : list (string * (string * bytes))) :
  Forall (λ f, header_safe (fst f) = true ∧ header_safe (fst (snd f)) = true) files →
  mapM parse_part (map raw_part (map file_block files)) = Some (map file_part files).
Proof.
  induction 1 as [|f fs [Hn Hfn] _ IH]; cbn [map mapM]; [done|].
  rewrite (file_part_parses f Hn Hfn). cbn [mbind option_bind]. rewrite IH. reflexivity.
Qed.

Lemma tail_of_length (token : bytes) (blocks : list (bytes * bytes)) :
  length blocks ≤ length (tail_of token blocks).
Proof.
  unfold tail_of. induction blocks as [|p blocks IH]; cbn [map concat length].
  - lia.
  - rewrite <- app_assoc, length_app. unfold CRLF at 1.
    cbn [app length] in IH |- *. lia.
Qed.

(** The body splits at its delimiters into the parts that were written. *)
Lemma boundary_parts_layout (fields : list (string * string))
    (files : list (string * (string * bytes))) (entropy : bytes) :
  let r := encode_multipart_formdata fields files entropy in
  let token := encode (make_boundary entropy) in
  Forall (λ p, contains (delimiter token) (raw_part p) = false)
    (map field_block fields ++ map file_block files) →
  boundary_parts (snd r) (fst r)
    = Some (map raw_part (map field_block fields ++ map file_block files)).
Proof.
  cbv zeta. intros Hclean. rewrite encoder_layout. cbn [fst snd].
  set (token := encode (make_boundary entropy)) in *.
  unfold boundary_parts, parse_boundary.
  rewrite encode_app, strip_prefix_app. cbn [mbind option_bind].
  fold token. rewrite blocks_tail.
  unfold dash_boundary at 1. rewrite strip_prefix_app. cbn [mbind option_bind].
  apply (split_parts_blocks token); [apply boundary_no_cr|exact Hclean|].
  pose proof (tail_of_length token (map field_block fields ++ map file_block files)).
  rewrite (length_app (_ ++ token)). lia.
Qed.

End Reader.
(** ** The claims on the encoder *)

Section EncoderClaims.

Import Multipart.

(** C2, as the code has it. When the names of the fields and of the file
    part and the file name are not empty, begin with a letter or a digit
    and are made of ASCII letters, digits, dots, underscores and dashes,
    and no field value and no file content holds the dash-boundary (two
    dashes and the boundary token), the body is one block per field, in
    order, then one block for the file, then the closing line: a block is
    the dash-boundary line, the header block, an empty line (the header
    block is followed by CRLF CRLF), the content and a CRLF, and the
    closing line is the dash-boundary followed by two dashes and CRLF.
    Split at its boundary delimiters, the body has exactly these parts, as
    many as fields plus one, and each of them, read up to its first empty
    line, gives the header block and the content that were written. *)
Theorem encoded_body_structure (fields : list (string * string))
    (name filename : string) (file_data entropy : bytes) :
  let r := encode_multipart_formdata fields [(name, (filename, file_data))] entropy in
  let token := encode (make_boundary entropy) in
  let parts :=
    map (λ f, (field_headers (fst f), encode (snd f))) fields
      ++ [(file_headers name filename, file_data)] in
  Forall (λ f, header_safe (fst f) = true
               ∧ contains (dash_boundary token) (encode (snd f)) = false) fields →
  header_safe name = true →
  header_safe filename = true →
  contains (dash_boundary token) file_data = false →
  fst r =
    concat (map (λ p, ([DASH; DASH] ++ token) ++ CRLF
                        ++ fst p ++ CRLF ++ CRLF ++ snd p ++ CRLF) parts)
      ++ ([DASH; DASH] ++ token) ++ [DASH; DASH] ++ CRLF
  ∧ boundary_parts (snd r) (fst r)
      = Some (map (λ p, fst p ++ CRLF ++ CRLF ++ snd p) parts)
  ∧ map split_part <$> boundary_parts (snd r) (fst r) = Some parts
  ∧ length <$> boundary_parts (snd r) (fst r) = Some (length fields + 1).
Proof.
  cbv zeta. intros Hfields Hname Hfilename Hdata.
  assert (boundary_parts
            (snd (encode_multipart_formdata fields [(name, (filename, file_data))] entropy))
            (fst (encode_multipart_formdata fields [(name, (filename, file_data))] entropy))
          = Some (map raw_part (map field_block fields
                                  ++ map file_block [(name, (filename, file_data))])))
    as Hparts.
  { apply (boundary_parts_layout fields [(name, (filename, file_data))]).
    apply Forall_app. split.
    + induction Hfields as [|f fs [Hn Hv] _ IH]; cbn [map]; [constructor|].
      constructor; [by apply field_part_clean|done].
    + cbn [map]. constructor; [|constructor]. by apply file_part_clean. }
  split; [|split; [|split]].
  - rewrite encoder_layout. reflexivity.
  - exact Hparts.
  - rewrite Hparts. cbn [fmap option_fmap option_map]. f_equal.
    rewrite !map_app. clear Hparts. f_equal.
    + induction Hfields as [|f fs [Hn _] _ IH]; cbn [map]; [done|].
      rewrite split_part_field by done. by rewrite IH.
    + cbn [map]. by rewrite (split_part_file (name, (filename, file_data))).
  - rewrite Hparts. cbn [fmap option_fmap option_map].
    by rewrite length_map, length_app, !length_map.
Qed.

(** The flags of the script and a file of two lines: five parts. *)
Lemma encoded_body_structure_witness :
  let r := encode_multipart_formdata flags
             [("file", (csv_name, encode ("a,b" +:+ crlf +:+ "1,2" +:+ crlf)))]
             [x00; x01; x02; x03; x04; x05; x06; x07; x08; x09; x0a; x0b; x0c; x0d; x0e; x0f] in
  length <$> boundary_parts (snd r) (fst r) = Some 5.
Proof.
  cbv zeta.
  destruct (encoded_body_structure flags "file" csv_name
              (encode ("a,b" +:+ crlf +:+ "1,2" +:+ crlf))
              [x00; x01; x02; x03; x04; x05; x06; x07; x08; x09; x0a; x0b; x0c; x0d; x0e; x0f])
    as (_ & Hparts & _).
  - repeat constructor.
  - reflexivity.
  - reflexivity.
  - reflexivity.
  - rewrite Hparts. reflexivity.
Defined.

(** C2, as stated, fails: the contents are written as they are, so a file
    that holds a delimiter line followed by a header block makes a body
    with more boundary-delimited parts than fields plus one. Here there is
    no field and one file, and the body has two parts. *)
Lemma encoded_body_parts_counterexample :
  let r := encode_multipart_formdata []
             [("file", (csv_name,
                        encode ("x" +:+ crlf
                                  +:+ "------WebKitFormBoundary000102030405060708090a0b0c0d0e0f"
                                  +:+ crlf +:+ "Content-Disposition: form-data; name="
                                  +:+ dquote +:+ "y" +:+ dquote +:+ crlf +:+ crlf +:+ "z")))]
             [x00; x01; x02; x03; x04; x05; x06; x07; x08; x09; x0a; x0b; x0c; x0d; x0e; x0f] in
  length <$> boundary_parts (snd r) (fst r) = Some 2
  ∧ length <$> parse_multipart (snd r) (fst r) = Some 2.
Proof. cbv zeta. split; vm_compute; reflexivity. Qed.

(** C3. The token that follows [boundary=] in the content type is the one
    of every dash-boundary line of the body and of its closing line. *)
Theorem content_type_boundary_matches (fields : list (string * string))
    (files : list (string * (string * bytes))) (entropy : bytes) :
  let r := encode_multipart_formdata fields files entropy in
  ∃ boundary : string,
    snd r = "multipart/form-data; boundary=" +:+ boundary
    ∧ parse_boundary (snd r) = Some (encode boundary)
    ∧ ∃ inner : list bytes,
        length inner = length fields + length files
        ∧ fst r =
            concat (map (λ p, [DASH; DASH] ++ encode boundary ++ CRLF ++ p) inner)
              ++ [DASH; DASH] ++ encode boundary ++ [DASH; DASH] ++ CRLF.
Proof.
  cbv zeta. rewrite encoder_layout. cbn [fst snd].
  exists (make_boundary entropy). split; [reflexivity|]. split.
  - unfold parse_boundary. by rewrite encode_app, strip_prefix_app.
  - exists (map (λ p, fst p ++ CRLF ++ CRLF ++ snd p ++ CRLF)
              (map field_block fields ++ map file_block files)).
    split.
    + by rewrite !length_map, length_app, !length_map.
    + rewrite map_map. reflexivity.
Qed.

(** C1, as the code has it. When the names of the fields and of the file
    part and the file name are not empty, begin with a letter or a digit
    and are made of ASCII letters, digits, dots, underscores and dashes,
    and neither a field value nor the file content holds the dash-boundary
    (two dashes and the boundary token), the reader recovers the bytes of
    every field value and the file bytes unchanged, under their names;
    CRLF sequences inside the file content do no harm. *)
Theorem multipart_round_trip (fields : list (string * string))
    (name filename : string) (file_data entropy : bytes) :
  let token := encode (make_boundary entropy) in
  Forall (λ f, header_safe (fst f) = true
               ∧ contains (dash_boundary token) (encode (snd f)) = false) fields →
  header_safe name = true →
  header_safe filename = true →
  contains (dash_boundary token) file_data = false →
  round_trip fields (name, (filename, file_data)) entropy.
Proof.
  cbv zeta. intros Hfields Hname Hfilename Hdata.
  unfold round_trip, parse_multipart. cbv zeta.
  rewrite (boundary_parts_layout fields [(name, (filename, file_data))]).
  - cbn [mbind option_bind]. rewrite map_app. apply mapM_parse_app.
    + apply fields_parse. eapply Forall_impl; [exact Hfields|]. by intros f [? _].
    + apply (files_parse [(name, (filename, file_data))]). by repeat constructor.
  - apply Forall_app. split.
    + induction Hfields as [|f fs [Hn Hv] _ IH]; cbn [map]; [constructor|].
      constructor; [by apply field_part_clean|done].
    + cbn [map]. constructor; [|constructor]. by apply file_part_clean.
Qed.

(** The round trip on the flags of the script and on a file whose content
    holds CRLF sequences. *)
Lemma multipart_round_trip_witness :
  round_trip flags ("file", (csv_name, encode ("a,b" +:+ crlf +:+ "1,2" +:+ crlf)))
    [x00; x01; x02; x03; x04; x05; x06; x07; x08; x09; x0a; x0b; x0c; x0d; x0e; x0f].
Proof.
  apply multipart_round_trip.
  - repeat constructor.
  - reflexivity.
  - reflexivity.
  - reflexivity.
Defined.

(** C1, as stated, fails: a field name may hold an empty line, which ends
    the header block early, so that the rest of the name is read as the
    start of the value. *)
Lemma multipart_round_trip_counterexample :
  ¬ round_trip [("a" +:+ crlf +:+ crlf +:+ "b", "v")]
      ("file", (csv_name, encode "x"))
      [x00; x01; x02; x03; x04; x05; x06; x07; x08; x09; x0a; x0b; x0c; x0d; x0e; x0f].
Proof. unfold round_trip. vm_compute. discriminate. Qed.

(** The condition on the contents is needed as well: a file that holds
    the delimiter made from the very bytes that [os.urandom] returns is cut
    there by the reader. *)
Remark multipart_round_trip_delimiter_collision :
  ¬ round_trip []
      ("file", (csv_name,
                encode ("x" +:+ crlf
                          +:+ "------WebKitFormBoundary000102030405060708090a0b0c0d0e0f"
                          +:+ crlf +:+ "y")))
      [x00; x01; x02; x03; x04; x05; x06; x07; x08; x09; x0a; x0b; x0c; x0d; x0e; x0f].
Proof. unfold round_trip. vm_compute. discriminate. Qed.

(** So is it at the very start of a content: after the headers, the line
    break of the empty line and a dash-boundary that opens the content
    make a delimiter, and the file is read as empty. *)
Remark multipart_round_trip_leading_dash_boundary :
  let r := encode_multipart_formdata []
             [("file", (csv_name,
                        encode ("------WebKitFormBoundary000102030405060708090a0b0c0d0e0f--"
                                  +:+ crlf +:+ "y")))]
             [x00; x01; x02; x03; x04; x05; x06; x07; x08; x09; x0a; x0b; x0c; x0d; x0e; x0f] in
  parse_multipart (snd r) (fst r)
    = Some [Part (encode "file") (Some (encode csv_name)) []].
Proof. cbv zeta. vm_compute. reflexivity. Qed.

(** A backslash in a name quotes the character after it: the name is not
    read back as it was written. *)
Remark multipart_round_trip_backslash_name :
  let r := encode_multipart_formdata []
             [("fi" +:+ String "092"%char "le", (csv_name, encode "x"))]
             [x00; x01; x02; x03; x04; x05; x06; x07; x08; x09; x0a; x0b; x0c; x0d; x0e; x0f] in
  parse_multipart (snd r) (fst r)
    = Some [Part (encode "file") (Some (encode csv_name)) (encode "x")].
Proof. cbv zeta. vm_compute. reflexivity. Qed.

End EncoderClaims.

(** ** Loops and traces *)

Section Loops.

Lemma count_app (p : event → bool) (t u : trace) :
  count p (t ++ u) = count p t + count p u.
Proof. induction t as [|e t IH]; simpl; [done|]. rewrite IH. lia. Qed.

(** The loop runs through the attempts that do not break. *)
Lemma for_range_exhausted (body : nat → io control) (t : nat → trace) (n start : nat) :
  (∀ j, start ≤ j < start + n → body j = (t j, inr Continue)) →
  for_range start n body = (concat (map t (seq start n)), inr Exhausted).
Proof.
  revert start. induction n as [|n IH]; intros start Hbody; simpl; [done|].
  rewrite (Hbody start) by lia. simpl.
  rewrite IH; [done|]. intros j Hj. apply Hbody. lia.
Qed.

(** The loop ends with the first attempt that breaks. *)
Lemma for_range_broke (body : nat → io control) (t : nat → trace) (tk : trace)
    (n k start : nat) :
  k < n →
  (∀ j, start ≤ j < start + k → body j = (t j, inr Continue)) →
  body (start + k) = (tk, inr Break) →
  for_range start n body = (concat (map t (seq start k)) ++ tk, inr Broke).
Proof.
  revert start n. induction k as [|k IH]; intros start n Hk Hbody Hlast.
  - destruct n as [|n]; [lia|]. simpl. rewrite Nat.add_0_r in Hlast.
    rewrite Hlast. simpl. by rewrite app_nil_r.
  - destruct n as [|n]; [lia|]. simpl. rewrite (Hbody start) by lia. simpl.
    rewrite (IH (S start) n); [by rewrite app_assoc|lia| |].
    + intros j Hj. apply Hbody. lia.
    + by replace (S start + k) with (start + S k) by lia.
Qed.

(** The loop is left by the first attempt that raises. *)
Lemma for_range_raised (body : nat → io control) (t : nat → trace) (tk : trace)
    (e : exn) (n k start : nat) :
  k < n →
  (∀ j, start ≤ j < start + k → body j = (t j, inr Continue)) →
  body (start + k) = (tk, inl e) →
  for_range start n body = (concat (map t (seq start k)) ++ tk, inl e).
Proof.
  revert start n. induction k as [|k IH]; intros start n Hk Hbody Hlast.
  - destruct n as [|n]; [lia|]. simpl. rewrite Nat.add_0_r in Hlast.
    rewrite Hlast. done.
  - destruct n as [|n]; [lia|]. simpl. rewrite (Hbody start) by lia. simpl.
    rewrite (IH (S start) n); [by rewrite app_assoc|lia| |].
    + intros j Hj. apply Hbody. lia.
    + by replace (S start + k) with (start + S k) by lia.
Qed.

(** A loop that broke did so in an attempt that said [Break], after
    attempts that all said [Continue]. *)
Lemma for_range_broke_inv (body : nat → io control) (n start : nat) (t : trace) :
  for_range start n body = (t, inr Broke) →
  ∃ k, k < n
       ∧ snd (body (start + k)) = inr Break
       ∧ (∀ j, j < k → snd (body (start + j)) = inr Continue)
       ∧ t = concat (map (λ j, fst (body j)) (seq start (S k))).
Proof.
  revert start t. induction n as [|n IH]; intros start t; simpl; [done|].
  destruct (body start) as [t0 [e|[]]] eqn:E; simpl; [done| |].
  - destruct (for_range (S start) n body) as [t1 r] eqn:E1.
    intros [= <- ->]. destruct (IH _ _ E1) as (k & Hk & Hb & Hc & Ht).
    exists (S k). split; [lia|]. split; [by rewrite Nat.add_succ_r|]. split.
    + intros [|j] Hj; [by rewrite Nat.add_0_r, E|].
      rewrite Nat.add_succ_r. apply Hc. lia.
    + by rewrite Ht.
  - intros [= <-]. exists 0. split; [lia|]. rewrite Nat.add_0_r, E.
    split; [done|]. split; [intros; lia|]. done.
Qed.

End Loops.

(** ** Locating the batch and printing it *)

Section Locating.

Lemma py_eq_completed (s : value) :
  py_eq s (VStr "completed") = true ↔ s = VStr "completed".
Proof.
  destruct s as [|b|n|s]; simpl; try (split; [discriminate|congruence]).
  rewrite bool_decide_eq_true. split; congruence.
Qed.

Lemma py_eq_not_completed (s : value) :
  s ≠ VStr "completed" → py_eq s (VStr "completed") = false.
Proof.
  intros H. apply not_true_is_false. by rewrite py_eq_completed.
Qed.

Lemma find_batch_absent (batch_id : value) (batches : list dict) :
  absent batch_id batches → find_batch batch_id batches = inr None.
Proof.
  induction 1 as [|b bs (v & Hv & Hne) _ IH]; simpl; [done|].
  unfold getitem. by rewrite Hv, Hne.
Qed.

Lemma find_batch_skip (batch_id : value) (pre rest : list dict) :
  Forall (differs batch_id) pre →
  find_batch batch_id (pre ++ rest) = find_batch batch_id rest.
Proof.
  induction 1 as [|b bs (v & Hv & Hne) _ IH]; simpl; [done|].
  unfold getitem. by rewrite Hv, Hne.
Qed.

Lemma find_batch_locates (batch_id : value) (batches : list dict) (b : dict) :
  locates batch_id batches b → find_batch batch_id batches = inr (Some b).
Proof.
  intros (pre & post & -> & Hpre & v & Hv & Heq).
  rewrite find_batch_skip by done. simpl. unfold getitem. by rewrite Hv, Heq.
Qed.

Lemma find_batch_no_id (batch_id : value) (pre post : list dict) (b : dict) :
  Forall (differs batch_id) pre → b !! "id" = None →
  find_batch batch_id (pre ++ b :: post) = inl (KeyError "id").
Proof.
  intros Hpre Hb. rewrite find_batch_skip by done. simpl. unfold getitem.
  by rewrite Hb.
Qed.

Lemma find_batch_Some_inv (batch_id : value) (batches : list dict) (b : dict) :
  find_batch batch_id batches = inr (Some b) → locates batch_id batches b.
Proof.
  induction batches as [|b0 bs IH]; simpl; [done|]. unfold getitem.
  destruct (b0 !! "id") as [v|] eqn:Hv; [|done].
  destruct (py_eq v batch_id) eqn:Heq.
  - intros [= <-]. exists [], bs. repeat split; [constructor|]. by exists v.
  - intros (pre & post & -> & Hpre & Hm)%IH.
    exists (b0 :: pre), post. repeat split; [|done].
    constructor; [|done]. by exists v.
Qed.

Lemma find_batch_None_inv (batch_id : value) (batches : list dict) :
  find_batch batch_id batches = inr None → absent batch_id batches.
Proof.
  induction batches as [|b0 bs IH]; simpl; [constructor|]. unfold getitem.
  destruct (b0 !! "id") as [v|] eqn:Hv; [|done].
  destruct (py_eq v batch_id) eqn:Heq; [done|].
  intros H. constructor; [by exists v|by apply IH].
Qed.

(** An object that has an [id] is not the empty dict, hence true. *)
Lemma matches_truthy (batch_id : value) (b : dict) :
  matches batch_id b → truthy (Some b) = true.
Proof.
  intros (v & Hv & _). simpl. rewrite bool_decide_eq_false_2; [done|].
  intros ->. by rewrite lookup_empty in Hv.
Qed.

Lemma locates_matches (batch_id : value) (batches : list dict) (b : dict) :
  locates batch_id batches b → matches batch_id b.
Proof. by intros (? & ? & _ & _ & ?). Qed.

(** The target is located in at most one way. *)
Lemma locates_unique (batch_id : value) (batches : list dict) (b b' : dict) :
  locates batch_id batches b → locates batch_id batches b' → b = b'.
Proof.
  intros H H'. apply find_batch_locates in H, H'. congruence.
Qed.

Lemma absent_not_located (batch_id : value) (batches : list dict) (b : dict) :
  absent batch_id batches → ¬ locates batch_id batches b.
Proof.
  intros H H'. apply find_batch_absent in H. apply find_batch_locates in H'.
  congruence.
Qed.

Lemma get_shown (b : dict) (key : string) (dflt : value) :
  py_str (get b key dflt) = shown b key (py_str dflt).
Proof. unfold get, shown. by destruct (b !! key). Qed.

Lemma print_snapshot_ok (i : nat) (b : dict) (s : value) :
  b !! "status" = Some s →
  print_snapshot i b = (snapshot_lines i b s, inr tt).
Proof.
  intros Hs. unfold print_snapshot, getitem, snapshot_lines.
  rewrite Hs, !get_shown. reflexivity.
Qed.

Lemma print_snapshot_no_status (i : nat) (b : dict) :
  b !! "status" = None →
  print_snapshot i b =
    ([Print (nl +:+ "⏱️  Time: " +:+ py_str (VInt (Z.of_nat i * 10)) +:+ "s")],
     inl (KeyError "status")).
Proof.
  intros Hs. unfold print_snapshot, getitem. rewrite Hs. reflexivity.
Qed.

End Locating.

(** One step of evaluation of a computation of the scripts. *)
Ltac io_step :=
  cbn [Simple.fetch Requests.fetch Requests.status_code Requests.json
       Requests.text emit print raise lift mbind io_bind mret io_ret app].

(** ** One attempt of [test-upload-simple.py] *)

Section SimpleScript.

Context (batch_id : value) (env : nat → Simple.reply (list dict)) (i : nat).

Lemma simple_attempt_raises (e : exn) :
  env i = Simple.Raises e →
  Simple.attempt batch_id env i = ([Sleep 10; Get batches_url], inl e).
Proof. intros Henv. unfold Simple.attempt. rewrite Henv. reflexivity. Qed.

Lemma simple_attempt_absent (batches : list dict) :
  env i = Simple.Returns batches →
  absent batch_id batches →
  Simple.attempt batch_id env i =
    ([Sleep 10; Get batches_url;
      Print ("⚠️ Batch " +:+ py_str batch_id +:+ " not found in list")],
     inr Continue).
Proof.
  intros Henv Habs. unfold Simple.attempt. rewrite Henv. io_step.
  rewrite (find_batch_absent _ _ Habs). reflexivity.
Qed.

Lemma simple_attempt_located (batches : list dict) (b : dict) (s : value) :
  env i = Simple.Returns batches →
  locates batch_id batches b →
  b !! "status" = Some s →
  Simple.attempt batch_id env i =
    ([Sleep 10; Get batches_url] ++ snapshot_lines i b s
       ++ (if py_eq s (VStr "completed")
           then [Print (nl +:+ "✅ Batch processing completed successfully!");
                 Print "✅ All enrichment phases completed"]
           else []),
     inr (if py_eq s (VStr "completed") then Break else Continue)).
Proof.
  intros Henv Hloc Hs. unfold Simple.attempt. rewrite Henv. io_step.
  rewrite (find_batch_locates _ _ _ Hloc).
  rewrite (matches_truthy batch_id) by by eapply locates_matches.
  rewrite (print_snapshot_ok _ _ _ Hs). unfold getitem. rewrite Hs. io_step.
  destruct (py_eq s (VStr "completed")); io_step; by rewrite ?app_nil_r.
Qed.

Lemma simple_attempt_no_id (pre post : list dict) (b : dict) :
  env i = Simple.Returns (pre ++ b :: post) →
  Forall (differs batch_id) pre →
  b !! "id" = None →
  Simple.attempt batch_id env i = ([Sleep 10; Get batches_url], inl (KeyError "id")).
Proof.
  intros Henv Hpre Hb. unfold Simple.attempt. rewrite Henv. io_step.
  rewrite find_batch_no_id by done. reflexivity.
Qed.

Lemma simple_attempt_no_status (batches : list dict) (b : dict) :
  env i = Simple.Returns batches →
  locates batch_id batches b →
  b !! "status" = None →
  Simple.attempt batch_id env i =
    ([Sleep 10; Get batches_url;
      Print (nl +:+ "⏱️  Time: " +:+ py_str (VInt (Z.of_nat i * 10)) +:+ "s")],
     inl (KeyError "status")).
Proof.
  intros Henv Hloc Hs. unfold Simple.attempt. rewrite Henv. io_step.
  rewrite (find_batch_locates _ _ _ Hloc).
  rewrite (matches_truthy batch_id) by by eapply locates_matches.
  rewrite (print_snapshot_no_status _ _ Hs). reflexivity.
Qed.

Lemma simple_attempt_pending (r : Simple.reply (list dict)) :
  env i = r → simple_pending batch_id r →
  ∃ t, Simple.attempt batch_id env i = ([Sleep 10; Get batches_url] ++ t, inr Continue)
       ∧ sleeps t = 0 ∧ gets t = 0.
Proof.
  intros Henv (batches & -> & [Habs | (b & s & Hloc & Hs & Hne)]).
  - rewrite (simple_attempt_absent _ Henv Habs). eexists. split; [reflexivity|done].
  - rewrite (simple_attempt_located _ _ _ Henv Hloc Hs).
    rewrite (py_eq_not_completed _ Hne). eexists. split; [reflexivity|done].
Qed.

Lemma simple_attempt_completed (r : Simple.reply (list dict)) :
  env i = r → simple_completed batch_id r →
  ∃ t, Simple.attempt batch_id env i = ([Sleep 10; Get batches_url] ++ t, inr Break)
       ∧ sleeps t = 0 ∧ gets t = 0.
Proof.
  intros Henv (batches & -> & b & Hloc & Hs).
  rewrite (simple_attempt_located _ _ _ Henv Hloc Hs).
  eexists. split; [reflexivity|done].
Qed.

(** The attempt says [Break] exactly on a reply that shows the target
    batch with the status "completed". *)
Lemma simple_attempt_break_iff :
  snd (Simple.attempt batch_id env i) = inr Break ↔ simple_completed batch_id (env i).
Proof.
  split.
  - unfold Simple.attempt. destruct (env i) as [e|batches] eqn:Henv; [done|].
    io_step. destruct (find_batch batch_id batches) as [e|[b|]] eqn:Hfind;
      [done| |done].
    apply find_batch_Some_inv in Hfind.
    rewrite (matches_truthy batch_id) by by eapply locates_matches.
    destruct (b !! "status") as [s|] eqn:Hs.
    + rewrite (print_snapshot_ok _ _ _ Hs). unfold getitem. rewrite Hs. io_step.
      destruct (py_eq s (VStr "completed")) eqn:Heq; [|done].
      apply py_eq_completed in Heq. subst s. intros _.
      exists batches. split; [done|]. by exists b.
    + by rewrite (print_snapshot_no_status _ _ Hs).
  - intros H. destruct (simple_attempt_completed _ eq_refl H) as (t & -> & _). done.
Qed.

End SimpleScript.

(** ** One attempt of [test-upload.py] *)

Section RequestsScript.

Context (batch_id : value) (env : nat → Requests.reply (list dict)) (i : nat).

Lemma requests_attempt_raises (e : exn) :
  env i = Requests.Raises e →
  Requests.attempt batch_id env i = ([Sleep 10; Get batches_url], inl e).
Proof. intros Henv. unfold Requests.attempt. rewrite Henv. reflexivity. Qed.

Lemma requests_attempt_not_200 (code : Z) (text : string) (json : exn + list dict) :
  env i = Requests.Response code text json →
  code ≠ 200%Z →
  Requests.attempt batch_id env i =
    ([Sleep 10; Get batches_url;
      Print ("❌ Failed to get batch status: " +:+ py_str (VInt code))],
     inr Continue).
Proof.
  intros Henv Hcode. unfold Requests.attempt. rewrite Henv. io_step.
  rewrite bool_decide_eq_false_2 by done. reflexivity.
Qed.

Lemma requests_attempt_bad_json (text : string) (e : exn) :
  env i = Requests.Response 200 text (inl e) →
  Requests.attempt batch_id env i = ([Sleep 10; Get batches_url], inl e).
Proof. intros Henv. unfold Requests.attempt. rewrite Henv. reflexivity. Qed.

Lemma requests_attempt_absent (text : string) (batches : list dict) :
  env i = Requests.Response 200 text (inr batches) →
  absent batch_id batches →
  Requests.attempt batch_id env i = ([Sleep 10; Get batches_url], inr Continue).
Proof.
  intros Henv Habs. unfold Requests.attempt. rewrite Henv. io_step.
  rewrite bool_decide_eq_true_2 by done. io_step.
  rewrite (find_batch_absent _ _ Habs). reflexivity.
Qed.

Lemma requests_attempt_located (text : string) (batches : list dict) (b : dict) (s : value) :
  env i = Requests.Response 200 text (inr batches) →
  locates batch_id batches b →
  b !! "status" = Some s →
  Requests.attempt batch_id env i =
    ([Sleep 10; Get batches_url] ++ snapshot_lines i b s
       ++ (if py_eq s (VStr "completed")
           then [Print (nl +:+ "✅ Batch processing completed!")]
           else []),
     inr (if py_eq s (VStr "completed") then Break else Continue)).
Proof.
  intros Henv Hloc Hs. unfold Requests.attempt. rewrite Henv. io_step.
  rewrite bool_decide_eq_true_2 by done. io_step.
  rewrite (find_batch_locates _ _ _ Hloc).
  rewrite (matches_truthy batch_id) by by eapply locates_matches.
  rewrite (print_snapshot_ok _ _ _ Hs). unfold getitem. rewrite Hs. io_step.
  destruct (py_eq s (VStr "completed")); io_step; by rewrite ?app_nil_r.
Qed.

Lemma requests_attempt_no_id (text : string) (pre post : list dict) (b : dict) :
  env i = Requests.Response 200 text (inr (pre ++ b :: post)) →
  Forall (differs batch_id) pre →
  b !! "id" = None →
  Requests.attempt batch_id env i = ([Sleep 10; Get batches_url], inl (KeyError "id")).
Proof.
  intros Henv Hpre Hb. unfold Requests.attempt. rewrite Henv. io_step.
  rewrite bool_decide_eq_true_2 by done. io_step.
  rewrite find_batch_no_id by done. reflexivity.
Qed.

Lemma requests_attempt_no_status (text : string) (batches : list dict) (b : dict) :
  env i = Requests.Response 200 text (inr batches) →
  locates batch_id batches b →
  b !! "status" = None →
  Requests.attempt batch_id env i =
    ([Sleep 10; Get batches_url;
      Print (nl +:+ "⏱️  Time: " +:+ py_str (VInt (Z.of_nat i * 10)) +:+ "s")],
     inl (KeyError "status")).
Proof.
  intros Henv Hloc Hs. unfold Requests.attempt. rewrite Henv. io_step.
  rewrite bool_decide_eq_true_2 by done. io_step.
  rewrite (find_batch_locates _ _ _ Hloc).
  rewrite (matches_truthy batch_id) by by eapply locates_matches.
  rewrite (print_snapshot_no_status _ _ Hs). reflexivity.
Qed.

Lemma requests_attempt_pending (r : Requests.reply (list dict)) :
  env i = r → requests_pending batch_id r →
  ∃ t, Requests.attempt batch_id env i = ([Sleep 10; Get batches_url] ++ t, inr Continue)
       ∧ sleeps t = 0 ∧ gets t = 0.
Proof.
  intros Henv [(code & text & json & -> & Hcode)
              | (text & batches & -> & [Habs | (b & s & Hloc & Hs & Hne)])].
  - rewrite (requests_attempt_not_200 _ _ _ Henv Hcode).
    eexists. split; [reflexivity|done].
  - rewrite (requests_attempt_absent _ _ Henv Habs).
    exists []. split; [reflexivity|done].
  - rewrite (requests_attempt_located _ _ _ _ Henv Hloc Hs).
    rewrite (py_eq_not_completed _ Hne). eexists. split; [reflexivity|done].
Qed.

Lemma requests_attempt_completed (r : Requests.reply (list dict)) :
  env i = r → requests_completed batch_id r →
  ∃ t, Requests.attempt batch_id env i = ([Sleep 10; Get batches_url] ++ t, inr Break)
       ∧ sleeps t = 0 ∧ gets t = 0.
Proof.
  intros Henv (text & batches & -> & b & Hloc & Hs).
  rewrite (requests_attempt_located _ _ _ _ Henv Hloc Hs).
  eexists. split; [reflexivity|done].
Qed.

Lemma requests_attempt_break_iff :
  snd (Requests.attempt batch_id env i) = inr Break
  ↔ requests_completed batch_id (env i).
Proof.
  split.
  - unfold Requests.attempt.
    destruct (env i) as [e|code text [e|batches]] eqn:Henv; [done| |]; io_step.
    + destruct (bool_decide (code = 200%Z)); done.
    + destruct (bool_decide (code = 200%Z)) eqn:Hcode; [|done].
      apply bool_decide_eq_true in Hcode. subst code. io_step.
      destruct (find_batch batch_id batches) as [e|[b|]] eqn:Hfind;
        [done| |done].
      apply find_batch_Some_inv in Hfind.
      rewrite (matches_truthy batch_id) by by eapply locates_matches.
      destruct (b !! "status") as [s|] eqn:Hs.
      * rewrite (print_snapshot_ok _ _ _ Hs). unfold getitem. rewrite Hs. io_step.
        destruct (py_eq s (VStr "completed")) eqn:Heq; [|done].
        apply py_eq_completed in Heq. subst s. intros _.
        exists text, batches. split; [done|]. by exists b.
      * by rewrite (print_snapshot_no_status _ _ Hs).
  - intros H. destruct (requests_attempt_completed _ eq_refl H) as (t & -> & _). done.
Qed.

End RequestsScript.

(** ** The polling loops *)

Section Polling.

Lemma count_concat_seq (p : event → bool) (f : nat → trace) (start n : nat) :
  (∀ j, start ≤ j < start + n → count p (f j) = 1) →
  count p (concat (map f (seq start n))) = n.
Proof.
  revert start. induction n as [|n IH]; intros start Hf; simpl; [done|].
  rewrite count_app, Hf by lia. rewrite IH; [done|]. intros j Hj. apply Hf. lia.
Qed.

(** A loop whose attempts sleep once and send one GET each, all saying
    [Continue] before attempt [k], which says [Break]. *)
Lemma loop_stops (body : nat → io control) (k n : nat) :
  k < n →
  (∀ j, j < k → ∃ t, body j = ([Sleep 10; Get batches_url] ++ t, inr Continue)
                     ∧ sleeps t = 0 ∧ gets t = 0) →
  (∃ t, body k = ([Sleep 10; Get batches_url] ++ t, inr Break)
        ∧ sleeps t = 0 ∧ gets t = 0) →
  ∃ t0 t1, for_range 0 n body = (t0 ++ [Sleep 10; Get batches_url] ++ t1, inr Broke)
           ∧ sleeps t0 = k ∧ gets t0 = k ∧ sleeps t1 = 0 ∧ gets t1 = 0.
Proof.
  intros Hk Hbefore (tk & Hlast & Hs & Hg).
  exists (concat (map (λ j, fst (body j)) (seq 0 k))), tk.
  rewrite (for_range_broke body (λ j, fst (body j)) ([Sleep 10; Get batches_url] ++ tk) n k 0);
    [|done| |done].
  - split; [done|]. repeat split; [| |done|done].
    + apply count_concat_seq. intros j Hj.
      destruct (Hbefore j) as (t & -> & Ht & _); [lia|]. simpl. unfold sleeps in Ht. lia.
    + apply count_concat_seq. intros j Hj.
      destruct (Hbefore j) as (t & -> & _ & Ht); [lia|]. simpl. unfold gets in Ht. lia.
  - intros j Hj. destruct (Hbefore j) as (t & -> & _); [lia|]. done.
Qed.

(** A loop all of whose attempts say [Continue] runs them all. *)
Lemma loop_exhausts (body : nat → io control) (n : nat) :
  (∀ j, j < n → ∃ t, body j = ([Sleep 10; Get batches_url] ++ t, inr Continue)
                     ∧ sleeps t = 0 ∧ gets t = 0) →
  ∃ t, for_range 0 n body = (t, inr Exhausted) ∧ sleeps t = n ∧ gets t = n.
Proof.
  intros Hall. exists (concat (map (λ j, fst (body j)) (seq 0 n))).
  rewrite (for_range_exhausted body (λ j, fst (body j)) n 0).
  - split; [done|]. split; apply count_concat_seq; intros j Hj;
      destruct (Hall j) as (t & -> & Hs & Hg); try lia; simpl;
      unfold sleeps, gets in *; lia.
  - intros j Hj. destruct (Hall j) as (t & -> & _); [lia|]. done.
Qed.

End Polling.

(** ** The scripts as a whole *)

Section Scripts.

Lemma simple_main_trace (file_data entropy : bytes) (result : dict)
    (env : nat → Simple.reply (list dict)) :
  let r := Multipart.encode_multipart_formdata flags [("file", (csv_name, file_data))] entropy in
  let batch_id := get result "id" VNone in
  Simple.main file_data entropy (Simple.Returns result) env =
    ([Print "📤 Testing batch upload and enrichment flow...";
      Post upload_url (snd r) (fst r);
      Print ("✅ Upload successful! Batch ID: " +:+ py_str batch_id);
      PrintJson "📊 Initial response: " result;
      Print (nl +:+ "📍 Monitoring batch processing...")]
       ++ fst (Simple.poll batch_id env)
       ++ match snd (Simple.poll batch_id env) with
          | inl e => [Print ("❌ Error: " +:+ exn_str e)]
          | inr _ => []
          end,
     inr tt).
Proof.
  cbv zeta. unfold Simple.main.
  destruct (Multipart.encode_multipart_formdata _ _ _) as [body content_type].
  io_step. destruct (Simple.poll _ env) as [t [e|l]]; cbn; by rewrite ?app_nil_r.
Qed.

Lemma requests_main_trace (file_data : bytes) (text : string) (result : dict)
    (env : nat → Requests.reply (list dict)) :
  let batch_id := get result "batchId" VNone in
  Requests.main file_data (Requests.Response 200 text (inr result)) env =
    ([Print "📤 Uploading test file...";
      PostForm upload_url flags [("file", (csv_name, file_data, "text/csv"))];
      Print ("✅ Upload successful! Batch ID: " +:+ py_str batch_id);
      PrintJson "📊 Response: " result;
      Print (nl +:+ "📍 Monitoring batch processing...")]
       ++ fst (Requests.poll batch_id env),
     match snd (Requests.poll batch_id env) with
     | inl e => inl e
     | inr _ => inr tt
     end).
Proof.
  cbv zeta. unfold Requests.main. io_step.
  rewrite bool_decide_eq_true_2 by done. io_step.
  destruct (Requests.poll _ env) as [t [e|l]]; cbn; by rewrite ?app_nil_r.
Qed.

End Scripts.

(** ** The claims on the polling loops *)

Section PollingClaims.

Lemma batch_of_id (id status : string) : batch_of id status !! "id" = Some (VStr id).
Proof. unfold batch_of. by simplify_map_eq. Qed.

Lemma batch_of_status (id status : string) :
  batch_of id status !! "status" = Some (VStr status).
Proof. unfold batch_of. by simplify_map_eq. Qed.

Lemma batch_of_locates (id status : string) (post : list dict) :
  locates (VStr id) (batch_of id status :: post) (batch_of id status).
Proof.
  exists [], post. split; [done|]. split; [constructor|].
  exists (VStr id). split; [apply batch_of_id|]. simpl. by rewrite bool_decide_eq_true_2.
Qed.

Lemma batch_of_differs (id id' status : string) :
  id ≠ id' → differs (VStr id') (batch_of id status).
Proof.
  intros Hne. exists (VStr id). split; [apply batch_of_id|].
  simpl. by rewrite bool_decide_eq_false_2.
Qed.

Lemma batch_of_pending (id status : string) :
  status ≠ "completed" → pending_in (VStr id) [batch_of id status].
Proof.
  intros Hne. right. exists (batch_of id status), (VStr status).
  split; [apply batch_of_locates|]. split; [apply batch_of_status|]. congruence.
Qed.

Lemma batch_of_completed (id : string) :
  completed_in (VStr id) [batch_of id "completed"].
Proof.
  exists (batch_of id "completed"). split; [apply batch_of_locates|apply batch_of_status].
Qed.

Lemma simple_env_pending (k j : nat) : j < k → simple_pending (VStr "b1") (simple_env k j).
Proof.
  intros Hj. unfold simple_env. rewrite (proj2 (Nat.ltb_lt j k)) by done.
  eexists. split; [reflexivity|]. by apply batch_of_pending.
Qed.

Lemma simple_env_completed (k : nat) : simple_completed (VStr "b1") (simple_env k k).
Proof.
  unfold simple_env. rewrite Nat.ltb_irrefl.
  eexists. split; [reflexivity|]. apply batch_of_completed.
Qed.

Lemma requests_env_pending (k j : nat) :
  j < k → requests_pending (VStr "b1") (requests_env k j).
Proof.
  intros Hj. unfold requests_env. rewrite (proj2 (Nat.ltb_lt j k)) by done.
  right. eexists _, _. split; [reflexivity|]. by apply batch_of_pending.
Qed.

Lemma requests_env_completed (k : nat) :
  requests_completed (VStr "b1") (requests_env k k).
Proof.
  unfold requests_env. rewrite Nat.ltb_irrefl.
  eexists _, _. split; [reflexivity|]. apply batch_of_completed.
Qed.

(** C4, as the code has it. When the first reply that shows the target
    batch with the status "completed" is one of the first 30, and every
    reply before it is a batch list showing the target with another status
    or not at all (for [test-upload.py], possibly a reply whose status code
    is not 200), both loops break in the attempt that receives it and do
    not sleep again. The attempt breaks the loop on such a reply and on no
    other, so a loop that broke has seen one among its 30 replies. *)
Theorem polling_stops_at_first_completed (batch_id : value)
    (env_s : nat → Simple.reply (list dict))
    (env_r : nat → Requests.reply (list dict)) (k : nat) :
  k < 30 →
  (∀ j, j < k → simple_pending batch_id (env_s j)) →
  simple_completed batch_id (env_s k) →
  (∀ j, j < k → requests_pending batch_id (env_r j)) →
  requests_completed batch_id (env_r k) →
  stops_at (Simple.poll batch_id env_s) k
  ∧ stops_at (Requests.poll batch_id env_r) k
  ∧ (∀ env i, snd (Simple.attempt batch_id env i) = inr Break
              ↔ simple_completed batch_id (env i))
  ∧ (∀ env i, snd (Requests.attempt batch_id env i) = inr Break
              ↔ requests_completed batch_id (env i))
  ∧ (∀ env, snd (Simple.poll batch_id env) = inr Broke →
            ∃ n, n < 30 ∧ simple_completed batch_id (env n))
  ∧ (∀ env, snd (Requests.poll batch_id env) = inr Broke →
            ∃ n, n < 30 ∧ requests_completed batch_id (env n)).
Proof.
  intros Hk Hs_before Hs_last Hr_before Hr_last.
  split; [|split; [|split; [|split; [|split]]]].
  - apply loop_stops; [done| |].
    + intros j Hj. by eapply simple_attempt_pending, Hs_before.
    + by eapply simple_attempt_completed.
  - apply loop_stops; [done| |].
    + intros j Hj. by eapply requests_attempt_pending, Hr_before.
    + by eapply requests_attempt_completed.
  - intros env i. apply simple_attempt_break_iff.
  - intros env i. apply requests_attempt_break_iff.
  - intros env Hb. unfold Simple.poll in Hb.
    destruct (for_range 0 30 (Simple.attempt batch_id env)) as [t r] eqn:E.
    simpl in Hb. subst r. apply for_range_broke_inv in E as (n & Hn & Hbr & _).
    exists n. split; [done|]. by apply simple_attempt_break_iff.
  - intros env Hb. unfold Requests.poll in Hb.
    destruct (for_range 0 30 (Requests.attempt batch_id env)) as [t r] eqn:E.
    simpl in Hb. subst r. apply for_range_broke_inv in E as (n & Hn & Hbr & _).
    exists n. split; [done|]. by apply requests_attempt_break_iff.
Qed.

(** Two replies with the status "processing", then "completed": both loops
    break in their third attempt. *)
Lemma polling_stops_at_first_completed_witness :
  stops_at (Simple.poll (VStr "b1") (simple_env 2)) 2
  ∧ stops_at (Requests.poll (VStr "b1") (requests_env 2)) 2.
Proof.
  destruct (polling_stops_at_first_completed (VStr "b1") (simple_env 2)
              (requests_env 2) 2) as (Hs & Hr & _).
  - lia.
  - intros j Hj. apply simple_env_pending, Hj.
  - apply simple_env_completed.
  - intros j Hj. apply requests_env_pending, Hj.
  - apply requests_env_completed.
  - exact (conj Hs Hr).
Defined.

(** C4, as stated, fails: a reply with the status "completed" that comes
    after 30 replies with another status is never asked for; the loop ends
    after its 30 attempts without a break. *)
Lemma polling_stops_counterexample :
  (∀ j, j < 30 → simple_pending (VStr "b1") (simple_env 30 j))
  ∧ simple_completed (VStr "b1") (simple_env 30 30)
  ∧ ¬ stops_at (Simple.poll (VStr "b1") (simple_env 30)) 30
  ∧ snd (Simple.poll (VStr "b1") (simple_env 30)) = inr Exhausted
  ∧ gets (fst (Simple.poll (VStr "b1") (simple_env 30))) = 30.
Proof.
  assert (∀ j, j < 30 → simple_pending (VStr "b1") (simple_env 30 j)) as Hpending
    by (intros j Hj; by apply simple_env_pending).
  destruct (loop_exhausts (Simple.attempt (VStr "b1") (simple_env 30)) 30)
    as (t & E & _ & Hg).
  { intros j Hj. by eapply simple_attempt_pending, Hpending. }
  fold (Simple.poll (VStr "b1") (simple_env 30)) in E.
  split; [exact Hpending|].
  split; [apply simple_env_completed|].
  rewrite E. split; [|split; done].
  intros (t0 & t1 & [= _ ?] & _).
Qed.

Lemma for_range_step (body : nat → io control) (i n : nat) (t : trace) :
  body i = (t, inr Continue) →
  for_range i (S n) body =
    (t ++ fst (for_range (S i) n body), snd (for_range (S i) n body)).
Proof. intros H. simpl. rewrite H. simpl. by destruct (for_range (S i) n body). Qed.

Lemma simple_other_absent (j : nat) : simple_absent (VStr "b1") (simple_other j).
Proof.
  eexists. split; [reflexivity|]. constructor; [|constructor].
  by apply batch_of_differs.
Qed.

Lemma requests_other_absent (j : nat) : requests_absent (VStr "b1") (requests_other j).
Proof.
  eexists _, _. split; [reflexivity|]. constructor; [|constructor].
  by apply batch_of_differs.
Qed.

(** C5, as the code has it. When each of the 30 replies is a batch list
    whose entries all have an [id], none of them the target, both loops
    make exactly 30 attempts, each one a sleep of 10 seconds followed by
    one GET (and, in [test-upload-simple.py], the not-found line), and end
    without an exception. Whenever a loop ends without an exception, be it
    exhausted or left by the break, the script has printed and sent what
    comes before the loop and what the loop did, nothing more, and ends
    normally: nothing tells the two ends apart but the lines of the
    attempts themselves. *)
Theorem polling_exhausts_after_30_attempts (batch_id : value)
    (env_s : nat → Simple.reply (list dict))
    (env_r : nat → Requests.reply (list dict)) :
  (∀ j, j < 30 → simple_absent batch_id (env_s j)) →
  (∀ j, j < 30 → requests_absent batch_id (env_r j)) →
  Simple.poll batch_id env_s =
    (concat (map (λ _, [Sleep 10; Get batches_url; not_found_line batch_id]) (seq 0 30)),
     inr Exhausted)
  ∧ Requests.poll batch_id env_r =
      (concat (map (λ _, [Sleep 10; Get batches_url]) (seq 0 30)), inr Exhausted)
  ∧ sleeps (fst (Simple.poll batch_id env_s)) = 30
  ∧ gets (fst (Simple.poll batch_id env_s)) = 30
  ∧ sleeps (fst (Requests.poll batch_id env_r)) = 30
  ∧ gets (fst (Requests.poll batch_id env_r)) = 30
  ∧ ∀ (file_data entropy : bytes) (text : string) (result_s result_r : dict),
      get result_s "id" VNone = batch_id →
      get result_r "batchId" VNone = batch_id →
      Simple.main file_data entropy (Simple.Returns result_s) env_s =
        (simple_prelude file_data entropy result_s
           ++ concat (map (λ _, [Sleep 10; Get batches_url; not_found_line batch_id])
                        (seq 0 30)),
         inr tt)
      ∧ Requests.main file_data (Requests.Response 200 text (inr result_r)) env_r =
          (requests_prelude file_data result_r
             ++ concat (map (λ _, [Sleep 10; Get batches_url]) (seq 0 30)),
           inr tt)
      ∧ (∀ env l, snd (Simple.poll batch_id env) = inr l →
           Simple.main file_data entropy (Simple.Returns result_s) env =
             (simple_prelude file_data entropy result_s ++ fst (Simple.poll batch_id env),
              inr tt))
      ∧ (∀ env l, snd (Requests.poll batch_id env) = inr l →
           Requests.main file_data (Requests.Response 200 text (inr result_r)) env =
             (requests_prelude file_data result_r ++ fst (Requests.poll batch_id env),
              inr tt)).
Proof.
  intros Hs Hr.
  assert (Simple.poll batch_id env_s =
            (concat (map (λ _, [Sleep 10; Get batches_url; not_found_line batch_id])
                       (seq 0 30)), inr Exhausted)) as Es.
  { apply for_range_exhausted. intros j Hj.
    destruct (Hs j) as (batches & Henv & Habs); [lia|].
    by apply (simple_attempt_absent _ _ _ batches). }
  assert (Requests.poll batch_id env_r =
            (concat (map (λ _, [Sleep 10; Get batches_url]) (seq 0 30)), inr Exhausted))
    as Er.
  { apply for_range_exhausted. intros j Hj.
    destruct (Hr j) as (text & batches & Henv & Habs); [lia|].
    by apply (requests_attempt_absent _ _ _ text batches). }
  split; [exact Es|]. split; [exact Er|].
  split; [rewrite Es; by apply count_concat_seq|].
  split; [rewrite Es; by apply count_concat_seq|].
  split; [rewrite Er; by apply count_concat_seq|].
  split; [rewrite Er; by apply count_concat_seq|].
  intros file_data entropy text result_s result_r Hids Hidr.
  assert (∀ env l, snd (Simple.poll batch_id env) = inr l →
            Simple.main file_data entropy (Simple.Returns result_s) env =
              (simple_prelude file_data entropy result_s ++ fst (Simple.poll batch_id env),
               inr tt)) as Gs.
  { intros env l Hl. rewrite simple_main_trace. unfold simple_prelude. cbv zeta.
    rewrite Hids, Hl, app_nil_r. reflexivity. }
  assert (∀ env l, snd (Requests.poll batch_id env) = inr l →
            Requests.main file_data (Requests.Response 200 text (inr result_r)) env =
              (requests_prelude file_data result_r ++ fst (Requests.poll batch_id env),
               inr tt)) as Gr.
  { intros env l Hl. rewrite requests_main_trace. unfold requests_prelude. cbv zeta.
    rewrite Hidr, Hl. reflexivity. }
  split; [|split; [|split; [exact Gs|exact Gr]]].
  - rewrite (Gs env_s Exhausted) by (by rewrite Es). by rewrite Es.
  - rewrite (Gr env_r Exhausted) by (by rewrite Er). by rewrite Er.
Qed.

(** Thirty lists that hold another batch only. *)
Lemma polling_exhausts_after_30_attempts_witness :
  snd (Simple.poll (VStr "b1") simple_other) = inr Exhausted
  ∧ sleeps (fst (Simple.poll (VStr "b1") simple_other)) = 30
  ∧ snd (Requests.poll (VStr "b1") requests_other) = inr Exhausted
  ∧ sleeps (fst (Requests.poll (VStr "b1") requests_other)) = 30.
Proof.
  destruct (polling_exhausts_after_30_attempts (VStr "b1") simple_other requests_other)
    as (Es & Er & Hs & _ & Hr & _).
  - intros j _. apply simple_other_absent.
  - intros j _. apply requests_other_absent.
  - rewrite Es, Er in *. exact (conj eq_refl (conj Hs (conj eq_refl Hr))).
Defined.

(** C5, as stated, fails: a list in which no entry has the target as its
    [id] may hold an entry without [id]. Reading [b['id']] of that entry
    raises [KeyError] in the first attempt, after one sleep and one GET:
    neither loop makes 30 attempts, and neither returns. *)
Lemma polling_exhausts_counterexample :
  (∀ j, ∃ batches, simple_no_id j = Simple.Returns batches
                   ∧ Forall (λ b, ¬ matches (VStr "b1") b) batches)
  ∧ (∀ j, ∃ text batches, requests_no_id j = Requests.Response 200 text (inr batches)
                          ∧ Forall (λ b, ¬ matches (VStr "b1") b) batches)
  ∧ Simple.poll (VStr "b1") simple_no_id =
      ([Sleep 10; Get batches_url], inl (KeyError "id"))
  ∧ Requests.poll (VStr "b1") requests_no_id =
      ([Sleep 10; Get batches_url], inl (KeyError "id"))
  ∧ sleeps (fst (Simple.poll (VStr "b1") simple_no_id)) = 1
  ∧ sleeps (fst (Requests.poll (VStr "b1") requests_no_id)) = 1.
Proof.
  assert (Forall (λ b, ¬ matches (VStr "b1") b) [no_id_batch]) as Hno.
  { constructor; [|constructor]. intros (v & Hv & _). by vm_compute in Hv. }
  assert (Simple.poll (VStr "b1") simple_no_id =
            ([Sleep 10; Get batches_url], inl (KeyError "id"))) as Es.
  { apply (for_range_raised _ (λ _, []) _ _ 30 0 0); [lia|intros; lia|].
    by apply (simple_attempt_no_id _ _ _ [] [] no_id_batch). }
  assert (Requests.poll (VStr "b1") requests_no_id =
            ([Sleep 10; Get batches_url], inl (KeyError "id"))) as Er.
  { apply (for_range_raised _ (λ _, []) _ _ 30 0 0); [lia|intros; lia|].
    by apply (requests_attempt_no_id _ _ _ "[...]" [] [] no_id_batch). }
  split; [intros j; by eexists|]. split; [intros j; by eexists _, _|].
  rewrite Es, Er. done.
Qed.

(** C6, as the code has it. On a batch list whose entries all have an [id]
    other than the target, the attempt of [test-upload-simple.py] prints
    the not-found line and the one of [test-upload.py] prints nothing; both
    end without an exception and without a break, and the loop goes on
    with the next attempt. *)
Theorem not_found_attempt_continues (batch_id : value)
    (env_s : nat → Simple.reply (list dict))
    (env_r : nat → Requests.reply (list dict)) (i n : nat) :
  simple_absent batch_id (env_s i) →
  requests_absent batch_id (env_r i) →
  Simple.attempt batch_id env_s i =
    ([Sleep 10; Get batches_url; not_found_line batch_id], inr Continue)
  ∧ Requests.attempt batch_id env_r i = ([Sleep 10; Get batches_url], inr Continue)
  ∧ for_range i (S n) (Simple.attempt batch_id env_s) =
      ([Sleep 10; Get batches_url; not_found_line batch_id]
         ++ fst (for_range (S i) n (Simple.attempt batch_id env_s)),
       snd (for_range (S i) n (Simple.attempt batch_id env_s)))
  ∧ for_range i (S n) (Requests.attempt batch_id env_r) =
      ([Sleep 10; Get batches_url]
         ++ fst (for_range (S i) n (Requests.attempt batch_id env_r)),
       snd (for_range (S i) n (Requests.attempt batch_id env_r))).
Proof.
  intros (bs & Hs & Habs) (text & br & Hr & Habr).
  pose proof (simple_attempt_absent _ _ _ _ Hs Habs) as Es.
  pose proof (requests_attempt_absent _ _ _ _ _ Hr Habr) as Er.
  split; [exact Es|]. split; [exact Er|].
  split; by apply for_range_step.
Qed.

Lemma not_found_attempt_continues_witness :
  Simple.attempt (VStr "b1") simple_other 0 =
    ([Sleep 10; Get batches_url; not_found_line (VStr "b1")], inr Continue)
  ∧ Requests.attempt (VStr "b1") requests_other 0 =
      ([Sleep 10; Get batches_url], inr Continue).
Proof.
  destruct (not_found_attempt_continues (VStr "b1") simple_other requests_other 0 0)
    as (Es & Er & _).
  - apply simple_other_absent.
  - apply requests_other_absent.
  - exact (conj Es Er).
Defined.

(** C6, as stated, fails for [test-upload.py]: when the target is not in
    the list, the attempt prints nothing at all. *)
Lemma not_found_warning_counterexample :
  requests_absent (VStr "b1") (requests_other 0)
  ∧ Requests.attempt (VStr "b1") requests_other 0 =
      ([Sleep 10; Get batches_url], inr Continue)
  ∧ prints (fst (Requests.attempt (VStr "b1") requests_other 0)) = 0.
Proof.
  pose proof (requests_other_absent 0) as (text & bs & Henv & Habs).
  rewrite (requests_attempt_absent _ _ _ _ _ Henv Habs).
  split; [apply requests_other_absent|]. split; reflexivity.
Qed.

Lemma batch_of_lacks (id status key : string) :
  key ≠ "id" → key ≠ "status" → batch_of id status !! key = None.
Proof. intros H1 H2. unfold batch_of. by simplify_map_eq. Qed.

(** C7. For a located batch that has a [status], the eight snapshot lines
    are printed in both scripts and the attempt ends without an exception;
    a field that the object lacks is shown by its placeholder: "N/A" for
    [currentStep], 0 for [processedRecords] and [totalRecords], "pending"
    for the four enrichment statuses. *)
Theorem snapshot_uses_placeholders (batch_id : value)
    (env_s : nat → Simple.reply (list dict))
    (env_r : nat → Requests.reply (list dict))
    (i : nat) (text : string) (batches : list dict) (b : dict) (s : value) :
  env_s i = Simple.Returns batches →
  env_r i = Requests.Response 200 text (inr batches) →
  locates batch_id batches b →
  b !! "status" = Some s →
  print_snapshot i b = (snapshot_lines i b s, inr tt)
  ∧ (∃ tail c, Simple.attempt batch_id env_s i =
                 ([Sleep 10; Get batches_url] ++ snapshot_lines i b s ++ tail, inr c))
  ∧ (∃ tail c, Requests.attempt batch_id env_r i =
                 ([Sleep 10; Get batches_url] ++ snapshot_lines i b s ++ tail, inr c))
  ∧ (∀ key placeholder, b !! key = None → shown b key placeholder = placeholder)
  ∧ (b !! "currentStep" = None → b !! "processedRecords" = None →
     b !! "totalRecords" = None → b !! "finexioMatchingStatus" = None →
     b !! "googleAddressStatus" = None → b !! "mastercardEnrichmentStatus" = None →
     b !! "akkioPredictionStatus" = None →
     snapshot_lines i b s =
       [ Print (nl +:+ "⏱️  Time: " +:+ py_str (VInt (Z.of_nat i * 10)) +:+ "s");
         Print ("📊 Status: " +:+ py_str s);
         Print "📝 Current Step: N/A";
         Print "📊 Classification: 0/0";
         Print "🔍 Finexio: pending";
         Print "📍 Google Address: pending";
         Print "💳 Mastercard: pending";
         Print "🤖 Akkio: pending" ]).
Proof.
  intros Hs Hr Hloc Hst.
  split; [by apply print_snapshot_ok|].
  split; [rewrite (simple_attempt_located _ _ _ _ _ _ Hs Hloc Hst); eauto|].
  split; [rewrite (requests_attempt_located _ _ _ _ _ _ _ Hr Hloc Hst); eauto|].
  split.
  - intros key placeholder Hkey. unfold shown. by rewrite Hkey.
  - intros H1 H2 H3 H4 H5 H6 H7. unfold snapshot_lines, shown.
    by rewrite H1, H2, H3, H4, H5, H6, H7.
Qed.

(** A batch that has nothing but [id] and [status], at the fourth attempt. *)
Lemma snapshot_uses_placeholders_witness :
  print_snapshot 3 (batch_of "b1" "processing") =
    ([ Print (nl +:+ "⏱️  Time: 30s");
       Print "📊 Status: processing";
       Print "📝 Current Step: N/A";
       Print "📊 Classification: 0/0";
       Print "🔍 Finexio: pending";
       Print "📍 Google Address: pending";
       Print "💳 Mastercard: pending";
       Print "🤖 Akkio: pending" ], inr tt).
Proof.
  destruct (snapshot_uses_placeholders (VStr "b1") simple_bare requests_bare 3
              "[...]" [batch_of "b1" "processing"] (batch_of "b1" "processing")
              (VStr "processing")) as (Hp & _ & _ & _ & Hlines).
  - reflexivity.
  - reflexivity.
  - apply batch_of_locates.
  - apply batch_of_status.
  - rewrite Hp, Hlines by (by apply batch_of_lacks). reflexivity.
Defined.

Lemma accessible_simple (batch_id : value) (env : nat → Simple.reply (list dict))
    (i : nat) (batches : list dict) :
  env i = Simple.Returns batches →
  (∃ c, snd (Simple.attempt batch_id env i) = inr c) ↔ accessible batch_id batches.
Proof.
  intros Henv. split.
  - intros [c Hc]. unfold Simple.attempt in Hc. rewrite Henv in Hc. revert Hc. io_step.
    destruct (find_batch batch_id batches) as [e|[b|]] eqn:Hfind; [done| |].
    + apply find_batch_Some_inv in Hfind.
      rewrite (matches_truthy batch_id) by by eapply locates_matches.
      destruct (b !! "status") as [s|] eqn:Hs.
      * intros _. right. exists b. split; [done|]. by rewrite Hs.
      * by rewrite (print_snapshot_no_status _ _ Hs).
    + intros _. left. by apply find_batch_None_inv.
  - intros [Habs | (b & Hloc & [s Hs])].
    + rewrite (simple_attempt_absent _ _ _ _ Henv Habs). eauto.
    + rewrite (simple_attempt_located _ _ _ _ _ _ Henv Hloc Hs). eauto.
Qed.

Lemma accessible_requests (batch_id : value) (env : nat → Requests.reply (list dict))
    (i : nat) (text : string) (batches : list dict) :
  env i = Requests.Response 200 text (inr batches) →
  (∃ c, snd (Requests.attempt batch_id env i) = inr c) ↔ accessible batch_id batches.
Proof.
  intros Henv. split.
  - intros [c Hc]. unfold Requests.attempt in Hc. rewrite Henv in Hc. revert Hc. io_step.
    rewrite bool_decide_eq_true_2 by done. io_step.
    destruct (find_batch batch_id batches) as [e|[b|]] eqn:Hfind; [done| |].
    + apply find_batch_Some_inv in Hfind.
      rewrite (matches_truthy batch_id) by by eapply locates_matches.
      destruct (b !! "status") as [s|] eqn:Hs.
      * intros _. right. exists b. split; [done|]. by rewrite Hs.
      * by rewrite (print_snapshot_no_status _ _ Hs).
    + intros _. left. by apply find_batch_None_inv.
  - intros [Habs | (b & Hloc & [s Hs])].
    + rewrite (requests_attempt_absent _ _ _ _ _ Henv Habs). eauto.
    + rewrite (requests_attempt_located _ _ _ _ _ _ _ Henv Hloc Hs). eauto.
Qed.

(** C8, as the code has it. Only the optional fields are read with a
    default; [id] and [status] are read by subscript. On a batch list, an
    attempt ends without an exception exactly when the entries up to the
    first match all have an [id] and the located batch, if any, has a
    [status]. Otherwise it raises [KeyError] for [id], or for [status]
    after the first snapshot line. *)
Theorem field_access_defaults_only_optional_fields (batch_id : value)
    (env_s : nat → Simple.reply (list dict))
    (env_r : nat → Requests.reply (list dict))
    (i : nat) (text : string) (batches : list dict) :
  env_s i = Simple.Returns batches →
  env_r i = Requests.Response 200 text (inr batches) →
  ((∃ c, snd (Simple.attempt batch_id env_s i) = inr c) ↔ accessible batch_id batches)
  ∧ ((∃ c, snd (Requests.attempt batch_id env_r i) = inr c) ↔ accessible batch_id batches)
  ∧ (∀ pre b post, batches = pre ++ b :: post → Forall (differs batch_id) pre →
       b !! "id" = None →
       Simple.attempt batch_id env_s i = ([Sleep 10; Get batches_url], inl (KeyError "id"))
       ∧ Requests.attempt batch_id env_r i =
           ([Sleep 10; Get batches_url], inl (KeyError "id")))
  ∧ (∀ b, locates batch_id batches b → b !! "status" = None →
       snd (Simple.attempt batch_id env_s i) = inl (KeyError "status")
       ∧ snd (Requests.attempt batch_id env_r i) = inl (KeyError "status")).
Proof.
  intros Hs Hr.
  split; [by apply accessible_simple|].
  split; [by eapply accessible_requests|].
  split.
  - intros pre b post -> Hpre Hb. split.
    + by eapply simple_attempt_no_id.
    + by eapply requests_attempt_no_id.
  - intros b Hloc Hb. split.
    + by rewrite (simple_attempt_no_status _ _ _ _ _ Hs Hloc Hb).
    + by rewrite (requests_attempt_no_status _ _ _ _ _ _ Hr Hloc Hb).
Qed.

(** A located batch without any optional field is read without failure. *)
Lemma field_access_defaults_only_optional_fields_witness :
  (∃ c, snd (Simple.attempt (VStr "b1") simple_bare 0) = inr c)
  ∧ (∃ c, snd (Requests.attempt (VStr "b1") requests_bare 0) = inr c).
Proof.
  destruct (field_access_defaults_only_optional_fields (VStr "b1") simple_bare
              requests_bare 0 "[...]" [batch_of "b1" "processing"])
    as (Hs & Hr & _).
  - reflexivity.
  - reflexivity.
  - assert (accessible (VStr "b1") [batch_of "b1" "processing"]) as Hacc.
    { right. exists (batch_of "b1" "processing").
      split; [apply batch_of_locates|]. rewrite batch_of_status. by eexists. }
    split; [by apply Hs|by apply Hr].
Defined.

(** C8, as stated, fails: an entry without [id] makes the search for the
    target raise [KeyError] in both scripts. *)
Lemma field_access_counterexample :
  Simple.attempt (VStr "b1") simple_no_id 0 =
    ([Sleep 10; Get batches_url], inl (KeyError "id"))
  ∧ Requests.attempt (VStr "b1") requests_no_id 0 =
      ([Sleep 10; Get batches_url], inl (KeyError "id")).
Proof.
  split.
  - by apply (simple_attempt_no_id _ _ _ [] [] no_id_batch).
  - by apply (requests_attempt_no_id _ _ _ "[...]" [] [] no_id_batch).
Qed.

End PollingClaims.

(** ** The claims on the scripts as a whole *)

Section ScriptClaims.

(** C9. After a successful upload, [test-upload-simple.py] polls for the
    value of the field [id] of the response and [test-upload.py] for the
    value of its field [batchId] ([None] when the field is absent); on a
    response that names the batch in [id] only, the two targets differ. *)
Theorem identifier_field_differs (file_data entropy : bytes) (text : string)
    (result : dict)
    (env_s : nat → Simple.reply (list dict))
    (env_r : nat → Requests.reply (list dict)) :
  let r := Multipart.encode_multipart_formdata flags [("file", (csv_name, file_data))] entropy in
  Simple.main file_data entropy (Simple.Returns result) env_s =
    ([Print "📤 Testing batch upload and enrichment flow...";
      Post upload_url (snd r) (fst r);
      Print ("✅ Upload successful! Batch ID: " +:+ py_str (get result "id" VNone));
      PrintJson "📊 Initial response: " result;
      Print (nl +:+ "📍 Monitoring batch processing...")]
       ++ fst (Simple.poll (get result "id" VNone) env_s)
       ++ match snd (Simple.poll (get result "id" VNone) env_s) with
          | inl e => [Print ("❌ Error: " +:+ exn_str e)]
          | inr _ => []
          end,
     inr tt)
  ∧ Requests.main file_data (Requests.Response 200 text (inr result)) env_r =
      ([Print "📤 Uploading test file...";
        PostForm upload_url flags [("file", (csv_name, file_data, "text/csv"))];
        Print ("✅ Upload successful! Batch ID: " +:+ py_str (get result "batchId" VNone));
        PrintJson "📊 Response: " result;
        Print (nl +:+ "📍 Monitoring batch processing...")]
         ++ fst (Requests.poll (get result "batchId" VNone) env_r),
       match snd (Requests.poll (get result "batchId" VNone) env_r) with
       | inl e => inl e
       | inr _ => inr tt
       end)
  ∧ (result !! "id" = None → get result "id" VNone = VNone)
  ∧ (result !! "batchId" = None → get result "batchId" VNone = VNone)
  ∧ (∀ v, result !! "id" = Some v → get result "id" VNone = v)
  ∧ (∀ v, result !! "batchId" = Some v → get result "batchId" VNone = v)
  ∧ get upload_result "id" VNone = VStr "b1"
  ∧ get upload_result "batchId" VNone = VNone.
Proof.
  cbv zeta. split; [apply simple_main_trace|]. split; [apply requests_main_trace|].
  unfold get. repeat split.
  - by intros ->.
  - by intros ->.
  - by intros v ->.
  - by intros v ->.
Qed.

(** C10, as the code has it. [test-upload.py] looks at the status code of
    the upload response and at the one of every polling response: an
    upload response whose code is not 200 has its code and its text
    printed and no polling follows; a polling response whose code is not
    200 has its code printed and is not read any further, and the loop
    goes on. An exception of a polling request is caught nowhere: it ends
    the loop and the script. *)
Theorem requests_status_code_guards (file_data : bytes) (code : Z) (text : string) :
  code ≠ 200%Z →
  (∀ json env,
     Requests.main file_data (Requests.Response code text json) env =
       ([Print "📤 Uploading test file...";
         PostForm upload_url flags [("file", (csv_name, file_data, "text/csv"))];
         Print ("❌ Upload failed with status code: " +:+ py_str (VInt code));
         Print ("Response: " +:+ text)],
        inr tt))
  ∧ (∀ batch_id json env i,
       env i = Requests.Response code text json →
       Requests.attempt batch_id env i =
         ([Sleep 10; Get batches_url;
           Print ("❌ Failed to get batch status: " +:+ py_str (VInt code))],
          inr Continue))
  ∧ (∀ batch_id env i e,
       env i = Requests.Raises e →
       Requests.attempt batch_id env i = ([Sleep 10; Get batches_url], inl e))
  ∧ (∀ result text' env k e,
       k < 30 →
       (∀ j, j < k → requests_pending (get result "batchId" VNone) (env j)) →
       env k = Requests.Raises e →
       snd (Requests.poll (get result "batchId" VNone) env) = inl e
       ∧ snd (Requests.main file_data (Requests.Response 200 text' (inr result)) env)
           = inl e).
Proof.
  intros Hcode. split; [|split; [|split]].
  - intros json env. unfold Requests.main. io_step.
    rewrite bool_decide_eq_false_2 by done. reflexivity.
  - intros batch_id json env i Henv. by eapply requests_attempt_not_200.
  - intros batch_id env i e Henv. by apply requests_attempt_raises.
  - intros result text' env k e Hk Hbefore Hlast.
    assert (snd (Requests.poll (get result "batchId" VNone) env) = inl e) as E.
    { unfold Requests.poll.
      rewrite (for_range_raised _
                 (λ j, fst (Requests.attempt (get result "batchId" VNone) env j))
                 [Sleep 10; Get batches_url] e 30 k 0); [done|done| |].
      - intros j Hj.
        destruct (requests_attempt_pending _ env j _ eq_refl (Hbefore j ltac:(lia)))
          as (t & -> & _). done.
      - by apply requests_attempt_raises. }
    split; [exact E|]. rewrite requests_main_trace. cbv zeta. cbn [snd]. by rewrite E.
Qed.

(** An upload answered with the code 500. *)
Lemma requests_status_code_guards_witness :
  Requests.main [] (Requests.Response 500 "Internal Server Error"
                      (inl (Error "Expecting value"))) requests_other =
    ([Print "📤 Uploading test file...";
      PostForm upload_url flags [("file", (csv_name, [], "text/csv"))];
      Print "❌ Upload failed with status code: 500";
      Print "Response: Internal Server Error"],
     inr tt).
Proof.
  destruct (requests_status_code_guards [] 500 "Internal Server Error") as (H & _).
  - discriminate.
  - exact (H (inl (Error "Expecting value")) requests_other).
Defined.

(** C10, as stated, fails: the polling loop of [test-upload.py] does look
    at the status code. The same batch list, showing the target as
    "completed", ends the loop under the code 200 and is not even read
    under the code 500. *)
Lemma polling_status_code_counterexample :
  Requests.attempt (VStr "b1") requests_failing 0 =
    ([Sleep 10; Get batches_url; Print "❌ Failed to get batch status: 500"],
     inr Continue)
  ∧ snd (Requests.attempt (VStr "b1") (requests_env 0) 0) = inr Break
  ∧ Requests.attempt (VStr "b1") requests_failing 0
      ≠ Requests.attempt (VStr "b1") (requests_env 0) 0.
Proof.
  pose proof (requests_attempt_not_200 (VStr "b1") requests_failing 0 500
                "Internal Server Error" (inr [batch_of "b1" "completed"]) eq_refl
                ltac:(discriminate)) as E1.
  assert (snd (Requests.attempt (VStr "b1") (requests_env 0) 0) = inr Break) as E2
    by (apply requests_attempt_break_iff, requests_env_completed).
  split; [rewrite E1; reflexivity|]. split; [exact E2|].
  intros H. apply (f_equal snd) in H. rewrite E2 in H. rewrite E1 in H.
  cbn [snd] in H. congruence.
Qed.

End ScriptClaims.

(** * Further properties *)

(** ** The boundary token *)

Section Boundary.

Import Multipart.

Lemma encode_length (s : string) : length (encode s) = String.length s.
Proof.
  unfold encode, String.list_byte_of_string. rewrite length_map.
  induction s as [|a s IH]; simpl; [done|]. by rewrite IH.
Qed.

Lemma hex_length (bs : bytes) : length (encode (hex bs)) = 2 * length bs.
Proof.
  induction bs as [|b bs IH]; [done|].
  cbn [hex]. rewrite encode_app, length_app, IH. cbn [length]. unfold hex_byte.
  rewrite !encode_cons, encode_nil. cbn [length]. lia.
Qed.


Lemma boundary_length (entropy : bytes) :
  length (encode (make_boundary entropy)) = 22 + 2 * length entropy.
Proof. unfold make_boundary. rewrite encode_app, length_app, hex_length. reflexivity. Qed.


Lemma unhex_hex_byte (b : byte) (rest : bytes) :
  unhex (encode (hex_byte b) ++ rest) = bs ← unhex rest; Some (b :: bs).
Proof. by destruct b. Qed.

Lemma unhex_encode_hex (bs : bytes) : unhex (encode (hex bs)) = Some bs.
Proof.
  induction bs as [|b bs IH]; [done|].
  cbn [hex]. rewrite encode_app, unhex_hex_byte, IH. reflexivity.
Qed.

(** X2. The hexadecimal text of the random bytes has two digits per byte
    and reads back to the same bytes: no two draws give the same text. *)
Theorem unhex_hex (bs : bytes) :
  unhex (encode (hex bs)) = Some bs ∧ length (encode (hex bs)) = 2 * length bs.
Proof. split; [apply unhex_encode_hex|apply hex_length]. Qed.

Lemma make_boundary_hex (entropy : bytes) :
  strip_prefix (encode "----WebKitFormBoundary") (encode (make_boundary entropy))
    = Some (encode (hex entropy)).
Proof. unfold make_boundary. by rewrite encode_app, strip_prefix_app. Qed.

(** X3. Different random bytes give different boundaries. *)
Theorem make_boundary_distinct (e1 e2 : bytes) :
  e1 ≠ e2 → make_boundary e1 ≠ make_boundary e2.
Proof.
  intros Hne Heq. apply Hne.
  pose proof (make_boundary_hex e1) as H1. rewrite Heq, make_boundary_hex in H1.
  injection H1 as H1.
  pose proof (unhex_encode_hex e1) as U1. rewrite <- H1, unhex_encode_hex in U1.
  congruence.
Qed.

Lemma make_boundary_distinct_witness :
  make_boundary [x00; x01] ≠ make_boundary [x00; x02].
Proof. apply make_boundary_distinct. discriminate. Defined.

End Boundary.

(** ** More on the encoder and the reader *)

Section EncoderMore.

Import Multipart.

Lemma reader_round_trip (fields : list (string * string))
    (files : list (string * (string * bytes))) (entropy : bytes) :
  let token := encode (make_boundary entropy) in
  Forall (λ f, header_safe (fst f) = true
               ∧ contains (dash_boundary token) (encode (snd f)) = false) fields →
  Forall (λ f, header_safe (fst f) = true
               ∧ header_safe (fst (snd f)) = true
               ∧ contains (dash_boundary token) (snd (snd f)) = false) files →
  round_trip_files fields files entropy.
Proof.
  cbv zeta. intros Hfields Hfiles.
  unfold round_trip_files, parse_multipart. cbv zeta.
  rewrite (boundary_parts_layout fields files).
  - cbn [mbind option_bind]. rewrite map_app. apply mapM_parse_app.
    + apply fields_parse. eapply Forall_impl; [exact Hfields|]. by intros f [? _].
    + apply files_parse. eapply Forall_impl; [exact Hfiles|]. by intros f (? & ? & _).
  - apply Forall_app. split.
    + induction Hfields as [|f fs [Hn Hv] _ IH]; cbn [map]; [constructor|].
      constructor; [by apply field_part_clean|done].
    + induction Hfiles as [|f fs (Hn & Hfn & Hv) _ IH]; cbn [map]; [constructor|].
      constructor; [by apply file_part_clean|done].
Qed.

(** X4. The round trip for any number of fields and of file parts, none
    included: when every name and file name is not empty, begins with a
    letter or a digit and is made of ASCII letters, digits, dots,
    underscores and dashes, and no value and no file content holds the
    dash-boundary (two dashes and the boundary token), the reader gives
    back all parts in order, with their names, file names and contents. *)
Theorem multipart_round_trip_files (fields : list (string * string))
    (files : list (string * (string * bytes))) (entropy : bytes) :
  let token := encode (make_boundary entropy) in
  Forall (λ f, header_safe (fst f) = true
               ∧ contains (dash_boundary token) (encode (snd f)) = false) fields →
  Forall (λ f, header_safe (fst f) = true
               ∧ header_safe (fst (snd f)) = true
               ∧ contains (dash_boundary token) (snd (snd f)) = false) files →
  round_trip_files fields files entropy.
Proof. apply reader_round_trip. Qed.

(** One field and two files, the second one empty. *)
Lemma multipart_round_trip_files_witness :
  round_trip_files [("enableAkkio", "true")]
    [("file", (csv_name, encode ("a,b" +:+ crlf +:+ "1,2")));
     ("other", ("empty.csv", []))]
    [x00; x01; x02; x03; x04; x05; x06; x07; x08; x09; x0a; x0b; x0c; x0d; x0e; x0f].
Proof.
  apply multipart_round_trip_files.
  - repeat constructor.
  - repeat constructor.
Defined.

Lemma concat_length_sum {A} (f : A → bytes) (l : list A) :
  length (concat (map f l)) = sum_list (map (λ x, length (f x)) l).
Proof.
  induction l as [|x l IH]; cbn [map concat sum_list]; [done|].
  by rewrite length_app, IH.
Qed.

Lemma block_length (token : bytes) (p : bytes * bytes) :
  length (block token p) = length token + length (fst p) + length (snd p) + 10.
Proof.
  unfold block, dash_boundary. rewrite !length_app. simpl. lia.
Qed.

Lemma field_headers_length (name : string) :
  length (field_headers name) = 39 + length (encode name).
Proof. rewrite field_headers_eq, !length_app. simpl. lia. Qed.

Lemma file_headers_length (name filename : string) :
  length (file_headers name filename)
    = 76 + length (encode name) + length (encode filename).
Proof. rewrite file_headers_eq, !length_app. simpl. lia. Qed.

(** X5. The length of the body, which is the Content-Length of the
    request: with a boundary of [L] bytes, a field costs [L + 49] bytes
    besides its name and its value, a file part [L + 86] bytes besides its
    name, its file name and its content, and the closing line [L + 6]. *)
Theorem body_length (fields : list (string * string))
    (files : list (string * (string * bytes))) (entropy : bytes) :
  let L := 22 + 2 * length entropy in
  length (fst (encode_multipart_formdata fields files entropy)) =
    sum_list (map (λ f, L + 49 + length (encode (fst f)) + length (encode (snd f))) fields)
    + sum_list (map (λ f, L + 86 + length (encode (fst f))
                            + length (encode (fst (snd f))) + length (snd (snd f))) files)
    + (L + 6).
Proof.
  cbv zeta. rewrite encoder_layout. cbn [fst].
  pose proof (boundary_length entropy) as HL.
  rewrite length_app, map_app, concat_app, length_app, !map_map, !concat_length_sum.
  unfold closing, dash_boundary. rewrite !length_app, HL.
  f_equal; [f_equal|unfold CRLF; cbn [length]; lia].
  - f_equal. apply map_ext. intros [name value].
    rewrite block_length, HL. unfold field_block. cbn [fst snd].
    rewrite field_headers_length. lia.
  - f_equal. apply map_ext. intros [name [filename data]].
    rewrite block_length, HL. unfold file_block. cbn [fst snd].
    rewrite file_headers_length. lia.
Qed.

End EncoderMore.

(** ** What the reader makes of contents that hold the delimiter *)

Section Collisions.

Import Multipart.

Lemma contains_short (pat l : bytes) : length l < length pat → contains pat l = false.
Proof.
  intros Hlen. unfold contains. apply bool_decide_eq_false. intros [[u v] H].
  apply split_at_length in H. lia.
Qed.

Lemma contains_split (pat l : bytes) :
  contains pat l = true → ∃ u v, split_at pat l = Some (u, v).
Proof.
  unfold contains. rewrite bool_decide_eq_true. intros [[u v] H]. eauto.
Qed.

(** The reader goes through clean parts and carries on with the text
    after them. *)
Lemma split_parts_prefix (token : bytes) (blocks : list (bytes * bytes))
    (fuel : nat) (rest : bytes) :
  Forall (λ x, x ≠ CR) token →
  Forall (λ p, contains (delimiter token) (raw_part p) = false) blocks →
  split_parts (length blocks + fuel) (delimiter token)
    (concat (map (λ p, CRLF ++ raw_part p ++ delimiter token) blocks) ++ rest)
  = ps ← split_parts fuel (delimiter token) rest; Some (map raw_part blocks ++ ps).
Proof.
  intros Htok Hall. induction Hall as [|p blocks Hp _ IH].
  - cbn [map concat length app Nat.add].
    by destruct (split_parts fuel (delimiter token) rest).
  - cbn [map concat length Nat.add]. rewrite <- !app_assoc.
    cbn [split_parts]. rewrite no_dashes_at_crlf, strip_prefix_app.
    cbn [mbind option_bind].
    rewrite (split_at_first CR (LF :: dash_boundary token)).
    + cbn [mbind option_bind]. rewrite IH.
      by destruct (split_parts fuel (delimiter token) rest).
    + repeat first [exact Htok | constructor | discriminate].
    + exact Hp.
Qed.

Lemma fields_clean (token : bytes) (fields : list (string * string)) :
  Forall (λ f, header_safe (fst f) = true
               ∧ contains (dash_boundary token) (encode (snd f)) = false) fields →
  Forall (λ p, contains (delimiter token) (raw_part p) = false) (map field_block fields).
Proof.
  induction 1 as [|f fs [Hn Hv] _ IH]; cbn [map]; [constructor|].
  constructor; [by apply field_part_clean|done].
Qed.

Lemma split_at_delimiter_skip (token a l : bytes) :
  Forall (λ x, x ≠ CR) a →
  split_at (delimiter token) (a ++ l) =
    (λ r : bytes * bytes, (a ++ r.1, r.2)) <$> split_at (delimiter token) l.
Proof. apply (split_at_skip CR (LF :: dash_boundary token)). Qed.

(** A line break followed by a byte that is not a dash is passed over. *)
Lemma split_at_line (token l : bytes) (x : byte) :
  x ≠ DASH →
  split_at (delimiter token) (CRLF ++ x :: l) =
    (λ r : bytes * bytes, (CRLF ++ r.1, r.2)) <$> split_at (delimiter token) (x :: l).
Proof.
  intros Hx.
  change (split_at (delimiter token) (CRLF ++ x :: l))
    with (match strip_prefix (delimiter token) (CR :: LF :: x :: l) with
          | Some rest => Some ([], rest)
          | None => '(a, b) ← split_at (delimiter token) ([LF] ++ x :: l); Some (CR :: a, b)
          end).
  assert (strip_prefix (delimiter token) (CR :: LF :: x :: l) = None) as ->.
  { unfold delimiter, CRLF, dash_boundary. cbn [app strip_prefix].
    rewrite !decide_True by done. by rewrite decide_False. }
  rewrite split_at_delimiter_skip by (repeat constructor; discriminate).
  by destruct (split_at (delimiter token) (x :: l)) as [[u v]|].
Qed.

(** The first delimiter after the headers of a file part is the first one
    in the empty line and the content. *)
Lemma split_at_file_part (token : bytes) (name filename : string) (l u v : bytes) :
  header_safe name = true →
  header_safe filename = true →
  split_at (delimiter token) (CRLF ++ l) = Some (u, v) →
  split_at (delimiter token) (file_headers name filename ++ CRLF ++ CRLF ++ l)
    = Some (file_headers name filename ++ CRLF ++ u, v).
Proof.
  intros Hn Hfn Hl.
  destruct (file_headers_lines name filename) as (h & -> & Hh).
  specialize (Hh Hn Hfn). rewrite <- !app_assoc.
  rewrite split_at_delimiter_skip by exact Hh.
  change (encode "Content-Type: text/csv" ++ CRLF ++ CRLF ++ l)
    with (x43 :: (encode "ontent-Type: text/csv" ++ CRLF ++ CRLF ++ l)).
  rewrite split_at_line by discriminate.
  change (x43 :: (encode "ontent-Type: text/csv" ++ CRLF ++ CRLF ++ l))
    with (encode "Content-Type: text/csv" ++ CRLF ++ CRLF ++ l).
  rewrite split_at_delimiter_skip by (by apply no_byte_Forall).
  change (CRLF ++ CRLF ++ l) with (CRLF ++ CR :: (LF :: l)).
  rewrite split_at_line by discriminate.
  change (CR :: LF :: l) with (CRLF ++ l). rewrite Hl.
  reflexivity.
Qed.

(** Without the empty line, the header block holds none. *)
Lemma file_headers_no_empty_line (name filename : string) :
  header_safe name = true →
  header_safe filename = true →
  split_at (CRLF ++ CRLF) (file_headers name filename ++ CRLF) = None.
Proof.
  intros Hn Hfn.
  destruct (file_headers_lines name filename) as (h & -> & Hh).
  specialize (Hh Hn Hfn). rewrite <- !app_assoc.
  rewrite (split_at_skip CR [LF; CR; LF]) by exact Hh.
  reflexivity.
Qed.

Lemma parse_part_content (body_part : bytes) (p : part) :
  parse_part body_part = Some p → part_content p = snd (split_part body_part).
Proof.
  unfold parse_part. destruct (split_part body_part) as [hdrs content].
  destruct (parse_disposition hdrs) as [[n f]|]; cbn [mbind option_bind]; [|done].
  by intros [= <-].
Qed.

Lemma tail_of_app (token : bytes) (blocks blocks' : list (bytes * bytes)) :
  tail_of token (blocks ++ blocks') =
    concat (map (λ p, CRLF ++ raw_part p ++ delimiter token) blocks)
      ++ tail_of token blocks'.
Proof.
  induction blocks as [|p blocks IH]; cbn [app map concat]; [done|].
  rewrite tail_of_cons, IH, <- !app_assoc. reflexivity.
Qed.

(** X6. The encoder escapes nothing: when the file content begins with
    the dash-boundary of the request or holds its delimiter, that is, when
    the line break before the content followed by the content holds the
    delimiter, the reader ends the part there and the round trip fails,
    however well formed the names and the fields are. *)
Theorem delimiter_in_file_breaks_round_trip (fields : list (string * string))
    (name filename : string) (file_data entropy : bytes) :
  let token := encode (make_boundary entropy) in
  Forall (λ f, header_safe (fst f) = true
               ∧ contains (dash_boundary token) (encode (snd f)) = false) fields →
  header_safe name = true →
  header_safe filename = true →
  contains (delimiter token) (CRLF ++ file_data) = true →
  ¬ round_trip fields (name, (filename, file_data)) entropy.
Proof.
  cbv zeta. intros Hfields Hname Hfilename Hdata.
  unfold round_trip, parse_multipart, boundary_parts. cbv zeta.
  rewrite encoder_layout. cbn [fst snd].
  set (token := encode (make_boundary entropy)) in *.
  unfold parse_boundary.
  rewrite encode_app, strip_prefix_app. cbn [mbind option_bind].
  fold token. rewrite blocks_tail.
  unfold dash_boundary at 1. rewrite strip_prefix_app. cbn [mbind option_bind].
  set (fuel := length (([DASH; DASH] ++ token) ++ tail_of token
                 (map field_block fields
                    ++ map file_block [(name, (filename, file_data))]))).
  assert (length (map field_block fields) < fuel) as Hfuel.
  { unfold fuel. rewrite (length_app (_ ++ token)).
    pose proof (tail_of_length token
                  (map field_block fields
                     ++ map file_block [(name, (filename, file_data))])) as Hl.
    rewrite length_app in Hl. cbn [map length] in Hl |- *. lia. }
  replace (S fuel) with
    (length (map field_block fields) + S (fuel - length (map field_block fields)))
    by lia.
  rewrite tail_of_app, (split_parts_prefix token);
    [|apply boundary_no_cr|by apply fields_clean].
  cbn [map]. rewrite tail_of_cons. cbn [split_parts].
  rewrite no_dashes_at_crlf, strip_prefix_app. cbn [mbind option_bind].
  destruct (contains_split _ _ Hdata) as (u & v & Hsplit).
  pose proof (split_at_Some _ _ _ _ Hsplit) as Hcat.
  apply (split_at_extend _ _ _ _ (delimiter token ++ tail_of token [])) in Hsplit.
  rewrite <- app_assoc in Hsplit.
  apply (split_at_file_part token name filename _ _ _ Hname Hfilename) in Hsplit.
  unfold raw_part, file_block. cbn [fst snd]. rewrite <- !app_assoc.
  rewrite Hsplit. cbn [mbind option_bind].
  destruct (split_parts _ _ _) as [ps|]; cbn [mbind option_bind]; [|done].
  intros Hm. apply mapM_Some in Hm.
  apply Forall2_app_inv_l in Hm as (k1 & k2 & H1 & H2 & Heq).
  apply Forall2_length in H1. rewrite !length_map in H1.
  apply app_inj_1 in Heq as [<- <-]; [|by rewrite length_map].
  apply Forall2_cons in H2 as [Hy _].
  pose proof (parse_part_content _ _ Hy) as Hc. clear Hy. rename Hc into Hy.
  change (part_content (file_part (name, (filename, file_data)))) with file_data in Hy.
  unfold split_part in Hy.
  assert (strip_prefix CRLF (file_headers name filename ++ CRLF ++ u) = None) as E
    by (by rewrite file_headers_eq).
  rewrite E in Hy.
  destruct u as [|x [|y u]].
  - rewrite file_headers_no_empty_line in Hy by done. cbn [snd] in Hy. subst file_data.
    discriminate Hcat.
  - discriminate Hcat.
  - injection Hcat as <- <- Hcat.
    change (CR :: LF :: u) with (CRLF ++ u) in Hy.
    rewrite split_file_headers in Hy by done. cbn [snd] in Hy. subst u.
    apply (f_equal length) in Hcat. rewrite !length_app in Hcat.
    unfold delimiter, CRLF in Hcat. cbn [length app] in Hcat. lia.
Qed.

(** A file that holds the delimiter made from the bytes drawn. *)
Lemma delimiter_in_file_breaks_round_trip_witness :
  ¬ round_trip flags
      ("file", (csv_name,
                encode ("x" +:+ crlf
                          +:+ "------WebKitFormBoundary000102030405060708090a0b0c0d0e0f"
                          +:+ crlf +:+ "y")))
      [x00; x01; x02; x03; x04; x05; x06; x07; x08; x09; x0a; x0b; x0c; x0d; x0e; x0f].
Proof.
  apply delimiter_in_file_breaks_round_trip.
  - repeat constructor.
  - reflexivity.
  - reflexivity.
  - reflexivity.
Defined.

End Collisions.

(** ** Bounds on what the loops do, whatever the server answers *)

Section Bounds.

Lemma quiet_counts (t : trace) :
  quiet t = true → sleeps t = 0 ∧ gets t = 0 ∧ slept t = 0%Z.
Proof.
  unfold quiet, sleeps, gets. induction t as [|e t IH]; [done|].
  cbn [forallb]. rewrite andb_true_iff. intros [He Ht].
  destruct (IH Ht) as (Hs & Hg & Hz). by destruct e.
Qed.

Lemma quiet_app (t u : trace) : quiet (t ++ u) = quiet t && quiet u.
Proof. apply forallb_app. Qed.

Lemma rounds_counts (ts : list trace) :
  Forall (λ t, quiet t = true) ts →
  sleeps (rounds ts) = length ts
  ∧ gets (rounds ts) = length ts
  ∧ slept (rounds ts) = (10 * Z.of_nat (length ts))%Z.
Proof.
  unfold rounds, sleeps, gets. induction 1 as [|t ts Ht _ (IHs & IHg & IHz)]; [done|].
  destruct (quiet_counts _ Ht) as (Hs & Hg & Hz). unfold sleeps, gets in Hs, Hg.
  cbn [map concat length]. change ((Sleep 10 :: Get batches_url :: t) ++ ?l)
    with (Sleep 10 :: Get batches_url :: (t ++ l)).
  cbn [count slept is_sleep is_get]. rewrite !count_app, Hs, Hg, IHs, IHg.
  split; [done|]. split; [done|].
  assert (∀ u, slept (t ++ u) = slept u) as ->; [|lia].
  clear -Hz Ht. induction t as [|e t IH]; [done|]. intros u.
  cbn [quiet forallb] in Ht. apply andb_true_iff in Ht as [He Ht].
  destruct e; try done; simpl in *; apply IH; try done;
    by destruct (quiet_counts _ Ht) as (_ & _ & ?).
Qed.

(** A loop whose attempts all have the shape of a round is a sequence of
    at most [n] rounds. *)
Lemma for_range_rounds (body : nat → io control) :
  (∀ i, ∃ t, fst (body i) = Sleep 10 :: Get batches_url :: t ∧ quiet t = true) →
  ∀ n start, ∃ ts, fst (for_range start n body) = rounds ts
                   ∧ length ts ≤ n ∧ Forall (λ t, quiet t = true) ts.
Proof.
  intros Hbody. induction n as [|n IH]; intros start.
  - exists []. by repeat split.
  - cbn [for_range]. destruct (Hbody start) as (t & Ht & Hq).
    destruct (body start) as [t0 [e|[]]] eqn:E; cbn [fst] in Ht; subst t0.
    + exists [t]. cbn. rewrite app_nil_r. repeat split; [lia|by constructor].
    + destruct (IH (S start)) as (ts & Hts & Hlen & Hall).
      exists (t :: ts). cbn [mbind io_bind].
      destruct (for_range (S start) n body) as [t' r]. cbn [fst] in Hts |- *. subst t'.
      repeat split; [cbn [length]; lia|by constructor].
    + exists [t]. cbn. rewrite app_nil_r. repeat split; [lia|by constructor].
Qed.

Lemma print_snapshot_quiet (i : nat) (b : dict) : quiet (fst (print_snapshot i b)) = true.
Proof.
  destruct (b !! "status") as [s|] eqn:Hs.
  - by rewrite (print_snapshot_ok _ _ _ Hs).
  - by rewrite (print_snapshot_no_status _ _ Hs).
Qed.

Lemma simple_attempt_round (batch_id : value) (env : nat → Simple.reply (list dict))
    (i : nat) :
  ∃ t, fst (Simple.attempt batch_id env i) = Sleep 10 :: Get batches_url :: t
       ∧ quiet t = true.
Proof.
  destruct (env i) as [e|batches] eqn:Henv.
  { rewrite (simple_attempt_raises _ _ _ _ Henv). by exists []. }
  destruct (find_batch batch_id batches) as [e|[b|]] eqn:Hfind.
  - unfold Simple.attempt. rewrite Henv. io_step. rewrite Hfind. by exists [].
  - apply find_batch_Some_inv in Hfind. destruct (b !! "status") as [s|] eqn:Hs.
    + rewrite (simple_attempt_located _ _ _ _ _ _ Henv Hfind Hs).
      eexists. split; [reflexivity|]. by destruct (py_eq s (VStr "completed")).
    + rewrite (simple_attempt_no_status _ _ _ _ _ Henv Hfind Hs). by eexists.
  - apply find_batch_None_inv in Hfind.
    rewrite (simple_attempt_absent _ _ _ _ Henv Hfind). by eexists.
Qed.

Lemma requests_attempt_round (batch_id : value) (env : nat → Requests.reply (list dict))
    (i : nat) :
  ∃ t, fst (Requests.attempt batch_id env i) = Sleep 10 :: Get batches_url :: t
       ∧ quiet t = true.
Proof.
  destruct (env i) as [e|code text json] eqn:Henv.
  { rewrite (requests_attempt_raises _ _ _ _ Henv). by exists []. }
  destruct (decide (code = 200%Z)) as [->|Hcode].
  2: { rewrite (requests_attempt_not_200 _ _ _ _ _ _ Henv Hcode). by eexists. }
  destruct json as [e|batches].
  { rewrite (requests_attempt_bad_json _ _ _ _ _ Henv). by exists []. }
  destruct (find_batch batch_id batches) as [e|[b|]] eqn:Hfind.
  - unfold Requests.attempt. rewrite Henv. io_step.
    rewrite bool_decide_eq_true_2 by done. io_step. rewrite Hfind. by exists [].
  - apply find_batch_Some_inv in Hfind. destruct (b !! "status") as [s|] eqn:Hs.
    + rewrite (requests_attempt_located _ _ _ _ _ _ _ Henv Hfind Hs).
      eexists. split; [reflexivity|]. by destruct (py_eq s (VStr "completed")).
    + rewrite (requests_attempt_no_status _ _ _ _ _ _ Henv Hfind Hs). by eexists.
  - apply find_batch_None_inv in Hfind.
    rewrite (requests_attempt_absent _ _ _ _ _ Henv Hfind). by exists [].
Qed.

(** X7. Whatever the status endpoint answers, be it errors, malformed
    lists or exceptions, each polling loop is a sequence of at most 30
    rounds, each a sleep of 10 seconds followed by one GET and by prints
    only: it sends as many GET requests as it sleeps, at most 30, never
    sends one without having slept first, and sleeps 300 seconds at most. *)
Theorem polling_is_bounded (batch_id : value)
    (env_s : nat → Simple.reply (list dict))
    (env_r : nat → Requests.reply (list dict)) :
  (∃ ts, fst (Simple.poll batch_id env_s) = rounds ts
         ∧ length ts ≤ 30 ∧ Forall (λ t, quiet t = true) ts)
  ∧ (∃ ts, fst (Requests.poll batch_id env_r) = rounds ts
           ∧ length ts ≤ 30 ∧ Forall (λ t, quiet t = true) ts)
  ∧ gets (fst (Simple.poll batch_id env_s)) = sleeps (fst (Simple.poll batch_id env_s))
  ∧ sleeps (fst (Simple.poll batch_id env_s)) ≤ 30
  ∧ (slept (fst (Simple.poll batch_id env_s)) ≤ 300)%Z
  ∧ gets (fst (Requests.poll batch_id env_r)) = sleeps (fst (Requests.poll batch_id env_r))
  ∧ sleeps (fst (Requests.poll batch_id env_r)) ≤ 30
  ∧ (slept (fst (Requests.poll batch_id env_r)) ≤ 300)%Z.
Proof.
  destruct (for_range_rounds (Simple.attempt batch_id env_s)
              (simple_attempt_round batch_id env_s) 30 0) as (ts & Hts & Hlen & Hall).
  destruct (for_range_rounds (Requests.attempt batch_id env_r)
              (requests_attempt_round batch_id env_r) 30 0) as (tr & Htr & Hlenr & Hallr).
  fold (Simple.poll batch_id env_s) in Hts. fold (Requests.poll batch_id env_r) in Htr.
  destruct (rounds_counts _ Hall) as (Hs & Hg & Hz).
  destruct (rounds_counts _ Hallr) as (Hsr & Hgr & Hzr).
  split; [eauto|]. split; [eauto|]. rewrite Hts, Htr, Hs, Hg, Hz, Hsr, Hgr, Hzr.
  repeat split; lia.
Qed.

End Bounds.

(** ** How the scripts end *)

Section Endings.

Lemma simple_main_upload_raises (file_data entropy : bytes) (e : exn)
    (env : nat → Simple.reply (list dict)) :
  let r := Multipart.encode_multipart_formdata flags [("file", (csv_name, file_data))] entropy in
  Simple.main file_data entropy (Simple.Raises e) env =
    ([Print "📤 Testing batch upload and enrichment flow...";
      Post upload_url (snd r) (fst r);
      Print ("❌ Error: " +:+ exn_str e)],
     inr tt).
Proof.
  cbv zeta. unfold Simple.main.
  by destruct (Multipart.encode_multipart_formdata _ _ _) as [body content_type].
Qed.

(** X8. [test-upload-simple.py] never ends with an exception once the file
    is read: whatever the upload and the polling requests come to, the
    script ends normally. When the upload raises, the error is printed
    right after the request and no polling takes place. *)
Theorem simple_script_never_raises (file_data entropy : bytes)
    (upload : Simple.reply dict) (env : nat → Simple.reply (list dict)) (e : exn) :
  let r := Multipart.encode_multipart_formdata flags [("file", (csv_name, file_data))] entropy in
  snd (Simple.main file_data entropy upload env) = inr tt
  ∧ Simple.main file_data entropy (Simple.Raises e) env =
      ([Print "📤 Testing batch upload and enrichment flow...";
        Post upload_url (snd r) (fst r);
        Print ("❌ Error: " +:+ exn_str e)],
       inr tt).
Proof.
  cbv zeta. split; [|apply simple_main_upload_raises].
  destruct upload as [e'|result].
  - by rewrite simple_main_upload_raises.
  - by rewrite simple_main_trace.
Qed.

Lemma requests_main_upload_raises (file_data : bytes) (e : exn)
    (env : nat → Requests.reply (list dict)) :
  Requests.main file_data (Requests.Raises e) env =
    ([Print "📤 Uploading test file...";
      PostForm upload_url flags [("file", (csv_name, file_data, "text/csv"))]],
     inl e).
Proof. reflexivity. Qed.

Lemma requests_main_bad_json (file_data : bytes) (text : string) (e : exn)
    (env : nat → Requests.reply (list dict)) :
  Requests.main file_data (Requests.Response 200 text (inl e)) env =
    ([Print "📤 Uploading test file...";
      PostForm upload_url flags [("file", (csv_name, file_data, "text/csv"))]],
     inl e).
Proof. reflexivity. Qed.

Lemma requests_main_not_200 (file_data : bytes) (code : Z) (text : string)
    (json : exn + dict) (env : nat → Requests.reply (list dict)) :
  code ≠ 200%Z →
  Requests.main file_data (Requests.Response code text json) env =
    ([Print "📤 Uploading test file...";
      PostForm upload_url flags [("file", (csv_name, file_data, "text/csv"))];
      Print ("❌ Upload failed with status code: " +:+ py_str (VInt code));
      Print ("Response: " +:+ text)],
     inr tt).
Proof.
  intros Hcode. unfold Requests.main. io_step.
  rewrite bool_decide_eq_false_2 by done. reflexivity.
Qed.

(** X9. [test-upload.py] ends normally in two cases only: the upload is
    answered with a status code other than 200, or it is answered with 200
    and a JSON object and no polling attempt raises. An exception of the
    upload request, a 200 response that is not JSON and an exception
    during polling all end the script with that exception; in the first
    two cases nothing is printed after the upload line and no polling
    takes place. *)
Theorem requests_script_ends_normally_iff (file_data : bytes)
    (upload : Requests.reply dict) (env : nat → Requests.reply (list dict)) :
  (snd (Requests.main file_data upload env) = inr tt
   ↔ ∃ code text json,
       upload = Requests.Response code text json
       ∧ (code ≠ 200%Z
          ∨ ∃ result l, json = inr result
                        ∧ snd (Requests.poll (get result "batchId" VNone) env) = inr l))
  ∧ (∀ e, upload = Requests.Raises e
          ∨ (∃ text, upload = Requests.Response 200 text (inl e)) →
          Requests.main file_data upload env =
            ([Print "📤 Uploading test file...";
              PostForm upload_url flags [("file", (csv_name, file_data, "text/csv"))]],
             inl e)).
Proof.
  split.
  - destruct upload as [e|code text json].
    { rewrite requests_main_upload_raises. split; [done|]. by intros (? & ? & ? & ? & _). }
    destruct (decide (code = 200%Z)) as [->|Hcode].
    2: { rewrite requests_main_not_200 by done. split; [|done]. intros _.
         exists code, text, json. split; [done|]. by left. }
    destruct json as [e|result].
    { rewrite requests_main_bad_json. split; [done|].
      intros (? & ? & ? & [= <- <- <-] & [?|(? & ? & ? & _)]); done. }
    rewrite requests_main_trace. cbv zeta. cbn [snd].
    destruct (snd (Requests.poll (get result "batchId" VNone) env)) as [e|l] eqn:E.
    + split; [done|].
      intros (? & ? & ? & [= <- <- <-] & [?|(? & ? & [= <-] & Hp)]); [done|].
      rewrite E in Hp. done.
    + split; [|done]. intros _. exists 200%Z, text, (inr result).
      split; [done|]. right. exists result, l. by rewrite E.
  - intros e [->|[text ->]]; reflexivity.
Qed.

End Endings.

(** ** Errors and odd replies during polling *)

Section PollingMore.

(** X10. A polling request of [test-upload-simple.py] that raises, after
    [k] attempts that went on, ends the loop at once: the script has slept
    and sent a GET [k + 1] times, prints the error as its last line and
    ends normally. *)
Theorem simple_polling_error_is_reported (file_data entropy : bytes) (result : dict)
    (env : nat → Simple.reply (list dict)) (k : nat) (e : exn) :
  k < 30 →
  (∀ j, j < k → simple_pending (get result "id" VNone) (env j)) →
  env k = Simple.Raises e →
  snd (Simple.poll (get result "id" VNone) env) = inl e
  ∧ snd (Simple.main file_data entropy (Simple.Returns result) env) = inr tt
  ∧ sleeps (fst (Simple.main file_data entropy (Simple.Returns result) env)) = S k
  ∧ gets (fst (Simple.main file_data entropy (Simple.Returns result) env)) = S k
  ∧ last (fst (Simple.main file_data entropy (Simple.Returns result) env))
      = Some (Print ("❌ Error: " +:+ exn_str e)).
Proof.
  intros Hk Hbefore Hlast. set (batch_id := get result "id" VNone) in *.
  assert (Simple.poll batch_id env =
            (concat (map (λ j, fst (Simple.attempt batch_id env j)) (seq 0 k))
               ++ [Sleep 10; Get batches_url], inl e)) as E.
  { apply for_range_raised; [done| |by apply simple_attempt_raises].
    intros j Hj.
    destruct (simple_attempt_pending batch_id env j _ eq_refl (Hbefore j ltac:(lia)))
      as (t & -> & _). done. }
  assert (sleeps (concat (map (λ j, fst (Simple.attempt batch_id env j)) (seq 0 k))) = k
          ∧ gets (concat (map (λ j, fst (Simple.attempt batch_id env j)) (seq 0 k))) = k)
    as [Hs Hg].
  { split; apply count_concat_seq; intros j Hj;
      destruct (simple_attempt_pending batch_id env j _ eq_refl (Hbefore j ltac:(lia)))
        as (t & -> & Hts & Htg); unfold sleeps, gets in *; simpl; lia. }
  rewrite simple_main_trace. cbv zeta. fold batch_id. rewrite E. cbn [fst snd].
  split; [done|]. split; [done|].
  unfold sleeps, gets in *. rewrite !count_app, Hs, Hg.
  split; [simpl; lia|]. split; [simpl; lia|].
  rewrite !app_assoc. apply last_snoc.
Qed.

Lemma simple_polling_error_is_reported_witness :
  last (fst (Simple.main [] [] (Simple.Returns upload_result) simple_drop))
    = Some (Print "❌ Error: connection refused")
  ∧ sleeps (fst (Simple.main [] [] (Simple.Returns upload_result) simple_drop)) = 2.
Proof.
  destruct (simple_polling_error_is_reported [] [] upload_result simple_drop 1
              (Error "connection refused")) as (_ & _ & Hs & _ & Hl).
  - lia.
  - intros j Hj. destruct j as [|j]; [|lia].
    eexists. split; [reflexivity|]. by apply batch_of_pending.
  - reflexivity.
  - exact (conj Hl Hs).
Defined.

(** X11. When every polling response of [test-upload.py] has a status code
    other than 200, the loop prints the code after each of its 30 requests,
    reads no body and ends without a break and without an exception. *)
Theorem requests_failing_status_is_polled_30_times (batch_id : value)
    (env : nat → Requests.reply (list dict)) (code : nat → Z) :
  (∀ j, j < 30 → code j ≠ 200%Z
                 ∧ ∃ text json, env j = Requests.Response (code j) text json) →
  Requests.poll batch_id env =
    (concat (map (λ j, [Sleep 10; Get batches_url;
                        Print ("❌ Failed to get batch status: " +:+ py_str (VInt (code j)))])
               (seq 0 30)),
     inr Exhausted).
Proof.
  intros Hall. apply for_range_exhausted. intros j Hj.
  destruct (Hall j) as (Hcode & text & json & Henv); [lia|].
  by eapply requests_attempt_not_200.
Qed.

Lemma requests_failing_status_is_polled_30_times_witness :
  snd (Requests.poll (VStr "b1") requests_failing) = inr Exhausted.
Proof.
  rewrite (requests_failing_status_is_polled_30_times (VStr "b1") requests_failing
             (λ _, 500%Z)); [reflexivity|].
  intros j _. split; [discriminate|]. by eexists _, _.
Defined.

Lemma py_eq_None (v : value) : v ≠ VNone → py_eq v VNone = false.
Proof. by destruct v. Qed.

(** X12. When the upload response has no [batchId] field, [test-upload.py]
    polls for [None]: as long as the entries of the lists have an [id]
    that is not null, the batch is never found, even when it is in the
    list under its [id], and the script sends its 30 requests, prints
    nothing about them and ends normally. *)
Theorem requests_without_batchId_never_finds (file_data : bytes) (text : string)
    (result : dict) (env : nat → Requests.reply (list dict)) :
  result !! "batchId" = None →
  (∀ j, j < 30 →
     ∃ text' batches, env j = Requests.Response 200 text' (inr batches)
                      ∧ Forall (λ b, ∃ v, b !! "id" = Some v ∧ v ≠ VNone) batches) →
  Requests.main file_data (Requests.Response 200 text (inr result)) env =
    ([Print "📤 Uploading test file...";
      PostForm upload_url flags [("file", (csv_name, file_data, "text/csv"))];
      Print "✅ Upload successful! Batch ID: None";
      PrintJson "📊 Response: " result;
      Print (nl +:+ "📍 Monitoring batch processing...")]
       ++ rounds (replicate 30 []),
     inr tt).
Proof.
  intros Hid Hall. rewrite requests_main_trace. cbv zeta.
  unfold get. rewrite Hid. cbn [default].
  assert (Requests.poll VNone env =
            (concat (map (λ _, [Sleep 10; Get batches_url]) (seq 0 30)), inr Exhausted))
    as ->.
  { apply for_range_exhausted. intros j Hj.
    destruct (Hall j) as (text' & batches & Henv & Hids); [lia|].
    eapply requests_attempt_absent; [done|].
    eapply Forall_impl; [exact Hids|]. intros b (v & Hv & Hne).
    exists v. split; [done|]. by apply py_eq_None. }
  reflexivity.
Qed.

(** The list shows the uploaded batch as completed at every attempt. *)
Lemma requests_without_batchId_never_finds_witness :
  snd (Requests.main [] (Requests.Response 200 "{...}" (inr upload_result))
         (requests_env 0)) = inr tt
  ∧ sleeps (fst (Requests.main [] (Requests.Response 200 "{...}" (inr upload_result))
                   (requests_env 0))) = 30.
Proof.
  rewrite (requests_without_batchId_never_finds [] "{...}" upload_result (requests_env 0)).
  - split; reflexivity.
  - reflexivity.
  - intros j _. eexists _, _. split; [reflexivity|].
    constructor; [|constructor]. exists (VStr "b1"). split; [apply batch_of_id|done].
Defined.

(** X13. The entries that follow the first one whose [id] is the target
    are never read: whatever they are, duplicates of the target or objects
    without [id], the attempt does the same. *)
Theorem entries_after_the_match_are_not_read (batch_id : value)
    (env_s env_s' : nat → Simple.reply (list dict))
    (env_r env_r' : nat → Requests.reply (list dict))
    (i : nat) (text text' : string) (pre post post' : list dict) (b : dict) :
  Forall (differs batch_id) pre →
  matches batch_id b →
  env_s i = Simple.Returns (pre ++ b :: post) →
  env_s' i = Simple.Returns (pre ++ b :: post') →
  env_r i = Requests.Response 200 text (inr (pre ++ b :: post)) →
  env_r' i = Requests.Response 200 text' (inr (pre ++ b :: post')) →
  Simple.attempt batch_id env_s i = Simple.attempt batch_id env_s' i
  ∧ Requests.attempt batch_id env_r i = Requests.attempt batch_id env_r' i.
Proof.
  intros Hpre Hb Hs Hs' Hr Hr'.
  assert (locates batch_id (pre ++ b :: post) b) as Hloc by by exists pre, post.
  assert (locates batch_id (pre ++ b :: post') b) as Hloc' by by exists pre, post'.
  destruct (b !! "status") as [s|] eqn:Hst.
  - rewrite (simple_attempt_located _ _ _ _ _ _ Hs Hloc Hst),
            (simple_attempt_located _ _ _ _ _ _ Hs' Hloc' Hst),
            (requests_attempt_located _ _ _ _ _ _ _ Hr Hloc Hst),
            (requests_attempt_located _ _ _ _ _ _ _ Hr' Hloc' Hst). done.
  - rewrite (simple_attempt_no_status _ _ _ _ _ Hs Hloc Hst),
            (simple_attempt_no_status _ _ _ _ _ Hs' Hloc' Hst),
            (requests_attempt_no_status _ _ _ _ _ _ Hr Hloc Hst),
            (requests_attempt_no_status _ _ _ _ _ _ Hr' Hloc' Hst). done.
Qed.

Lemma entries_after_the_match_are_not_read_witness :
  Simple.attempt (VStr "b1") simple_short 0 = Simple.attempt (VStr "b1") simple_long 0
  ∧ Requests.attempt (VStr "b1") requests_short 0
      = Requests.attempt (VStr "b1") requests_long 0.
Proof.
  apply (entries_after_the_match_are_not_read (VStr "b1") simple_short simple_long
           requests_short requests_long 0 "[...]" "[...]"
           [batch_of "b2" "queued"] [] [no_id_batch; batch_of "b1" "completed"]
           (batch_of "b1" "processing")).
  - constructor; [|constructor]. by apply batch_of_differs.
  - exact (locates_matches _ _ _ (batch_of_locates "b1" "processing" [])).
  - reflexivity.
  - reflexivity.
  - reflexivity.
  - reflexivity.
Defined.

(** X14. The placeholders stand for missing fields only: a field that is
    present with the value null is printed as [None], in the snapshot of
    both scripts. *)
Theorem null_fields_are_shown_as_None (i : nat) (b : dict) (s : value) :
  b !! "status" = Some s →
  b !! "currentStep" = Some VNone → b !! "processedRecords" = Some VNone →
  b !! "totalRecords" = Some VNone → b !! "finexioMatchingStatus" = Some VNone →
  b !! "googleAddressStatus" = Some VNone →
  b !! "mastercardEnrichmentStatus" = Some VNone →
  b !! "akkioPredictionStatus" = Some VNone →
  print_snapshot i b =
    ([ Print (nl +:+ "⏱️  Time: " +:+ py_str (VInt (Z.of_nat i * 10)) +:+ "s");
       Print ("📊 Status: " +:+ py_str s);
       Print "📝 Current Step: None";
       Print "📊 Classification: None/None";
       Print "🔍 Finexio: None";
       Print "📍 Google Address: None";
       Print "💳 Mastercard: None";
       Print "🤖 Akkio: None" ], inr tt).
Proof.
  intros Hs H1 H2 H3 H4 H5 H6 H7. rewrite (print_snapshot_ok _ _ _ Hs).
  unfold snapshot_lines, shown. by rewrite H1, H2, H3, H4, H5, H6, H7.
Qed.

Lemma null_fields_are_shown_as_None_witness :
  Print "📝 Current Step: None" ∈ fst (print_snapshot 0 null_batch).
Proof.
  rewrite (null_fields_are_shown_as_None 0 null_batch (VStr "processing"));
    [|unfold null_batch; by simplify_map_eq..].
  cbn [fst]. do 2 apply list_elem_of_further. apply list_elem_of_here.
Defined.

End PollingMore.

(** ** The time shown and the request sent *)

Section TimeAndRequest.

Import Multipart.

Lemma slept_app (t u : trace) : slept (t ++ u) = (slept t + slept u)%Z.
Proof.
  induction t as [|e t IH]; [done|]. destruct e; simpl; rewrite ?IH; lia.
Qed.

Lemma slept_concat_seq (f : nat → trace) (start n : nat) :
  (∀ j, start ≤ j < start + n → slept (f j) = 10%Z) →
  slept (concat (map f (seq start n))) = (10 * Z.of_nat n)%Z.
Proof.
  revert start. induction n as [|n IH]; intros start Hf; [done|].
  cbn [seq map concat]. rewrite slept_app, Hf by lia.
  rewrite IH; [lia|]. intros j Hj. apply Hf. lia.
Qed.

(** X15. The time printed in a snapshot is ten times the number of the
    attempt, counted from 0, while the attempt starts with its own sleep:
    when [test-upload-simple.py] sees the batch completed in attempt [k],
    it has slept [10 * (k + 1)] seconds and the last time it printed is
    [10 * k] seconds. *)
Theorem shown_time_lags_one_sleep (batch_id : value)
    (env : nat → Simple.reply (list dict)) (k : nat) :
  k < 30 →
  (∀ j, j < k → simple_pending batch_id (env j)) →
  simple_completed batch_id (env k) →
  slept (fst (Simple.poll batch_id env)) = (10 * (Z.of_nat k + 1))%Z
  ∧ ∃ t0 t1,
      fst (Simple.poll batch_id env) =
        t0 ++ [Sleep 10; Get batches_url;
               Print (nl +:+ "⏱️  Time: " +:+ py_str (VInt (Z.of_nat k * 10)) +:+ "s")]
           ++ t1
      ∧ quiet t1 = true.
Proof.
  intros Hk Hbefore (batches & Henv & b & Hloc & Hst).
  assert (∀ j, 0 ≤ j < 0 + k →
            Simple.attempt batch_id env j
              = (fst (Simple.attempt batch_id env j), inr Continue)
            ∧ slept (fst (Simple.attempt batch_id env j)) = 10%Z) as Hcont.
  { intros j Hj.
    destruct (simple_attempt_pending batch_id env j _ eq_refl (Hbefore j ltac:(lia)))
      as (t & E & _).
    destruct (simple_attempt_round batch_id env j) as (t' & Ht' & Hq').
    destruct (quiet_counts _ Hq') as (_ & _ & Hz).
    split; [by rewrite E|]. rewrite Ht'. cbn [slept]. lia. }
  pose proof (simple_attempt_located _ _ _ _ _ _ Henv Hloc Hst) as Elast.
  cbn [py_eq] in Elast. rewrite bool_decide_eq_true_2 in Elast by done.
  unfold Simple.poll.
  rewrite (for_range_broke _ (λ j, fst (Simple.attempt batch_id env j)) _ 30 k 0 Hk
             (λ j Hj, proj1 (Hcont j Hj)) Elast).
  cbn [fst]. split.
  - rewrite slept_app, slept_concat_seq by (intros j Hj; apply (Hcont j Hj)).
    simpl. lia.
  - eexists _, _. split; [reflexivity|]. reflexivity.
Qed.

Lemma shown_time_lags_one_sleep_witness :
  slept (fst (Simple.poll (VStr "b1") (simple_env 2))) = 30%Z.
Proof.
  destruct (shown_time_lags_one_sleep (VStr "b1") (simple_env 2) 2) as (Hs & _).
  - lia.
  - intros j Hj. apply simple_env_pending, Hj.
  - apply simple_env_completed.
  - exact Hs.
Defined.

(** X16. The request that [test-upload-simple.py] sends can be read back
    whenever the content of the CSV file does not hold the dash-boundary
    (two dashes and the boundary token of the request): the second event
    of the script is the POST to the upload address, and its body, read
    with its content type, gives the four flags with the value "true" and
    the file under the name [file], with its file name and its content
    unchanged. *)
Theorem simple_upload_request_is_readable (file_data entropy : bytes)
    (upload : Simple.reply dict) (env : nat → Simple.reply (list dict)) :
  contains (dash_boundary (encode (make_boundary entropy))) file_data = false →
  ∃ content_type body rest,
    fst (Simple.main file_data entropy upload env) =
      Print "📤 Testing batch upload and enrichment flow..."
        :: Post upload_url content_type body :: rest
    ∧ parse_multipart content_type body =
        Some [ Part (encode "enableFinexio") None (encode "true");
               Part (encode "enableMastercard") None (encode "true");
               Part (encode "enableGoogleAddress") None (encode "true");
               Part (encode "enableAkkio") None (encode "true");
               Part (encode "file") (Some (encode csv_name)) file_data ].
Proof.
  intros Hdata.
  set (r := encode_multipart_formdata flags [("file", (csv_name, file_data))] entropy).
  exists (snd r), (fst r).
  assert (parse_multipart (snd r) (fst r) =
            Some (map field_part flags ++ map file_part [("file", (csv_name, file_data))]))
    as Hrt.
  { apply reader_round_trip.
    - assert (contains (dash_boundary (encode (make_boundary entropy))) (encode "true")
              = false) as Htrue.
      { apply contains_short. unfold dash_boundary.
        rewrite !length_app, boundary_length. simpl. lia. }
      repeat constructor; exact Htrue.
    - repeat constructor. exact Hdata. }
  destruct upload as [e|result].
  - rewrite simple_main_upload_raises. cbv zeta. fold r. eexists. split; [reflexivity|].
    exact Hrt.
  - rewrite simple_main_trace. cbv zeta. fold r. eexists. split; [reflexivity|].
    exact Hrt.
Qed.

Lemma simple_upload_request_is_readable_witness :
  ∃ content_type body rest,
    fst (Simple.main (encode ("a,b" +:+ crlf +:+ "1,2" +:+ crlf)) [x00; xff]
           (Simple.Returns upload_result) simple_other) =
      Print "📤 Testing batch upload and enrichment flow..."
        :: Post upload_url content_type body :: rest
    ∧ parse_multipart content_type body =
        Some [ Part (encode "enableFinexio") None (encode "true");
               Part (encode "enableMastercard") None (encode "true");
               Part (encode "enableGoogleAddress") None (encode "true");
               Part (encode "enableAkkio") None (encode "true");
               Part (encode "file") (Some (encode csv_name))
                 (encode ("a,b" +:+ crlf +:+ "1,2" +:+ crlf)) ].
Proof.
  apply simple_upload_request_is_readable. reflexivity.
Defined.

End TimeAndRequest.
